(** * RAG_ADMIN: the ingestion-and-consistency pipeline of [admin_app.py]

    A shallow embedding of the text segmenter ([chunk_text]), the embedding
    and vector-index writes ([get_embedding], [store_chunks]), and the request
    handlers that keep the three MongoDB collections and the Pinecone index in
    step ([admin_upload], [get_documents], [update_document],
    [delete_document], [get_stateboard_documents], [get_cbse_documents]),
    and of the administrator accounts ([admin_register], [admin_login],
    [admin_logout], [admin_profile], [update_admin_profile]).

    Python integers are [Z]; a Python [str] that is sliced is a list of
    characters; MongoDB documents and the Pinecone index are finite maps;
    a collection is the list of its documents in insertion order. No
    handler catches an exception: a call that raises (the file cannot be
    saved or read, the driver cannot encode a value, the store refuses a
    write) is an outcome of its handler, with the stores as they were. *)

From Stdlib Require Import ZArith Ascii String.
From stdpp Require Import gmap strings list fin_maps pretty.

Local Open Scope Z_scope.

(** ** Python sequences *)

(** The text that is segmented: one list element per character. *)
Abbreviation text := (list ascii).

Definition len {A} (s : list A) : Z := Z.of_nat (length s).

(** How a slice bound is brought into [0, n]: a negative bound counts
    from the end, and both ends are clamped. *)
Definition py_adjust (i n : Z) : Z :=
  if i <? 0 then Z.max (i + n) 0 else Z.min i n.

(** [s[start:stop]]. *)
Definition py_slice {A} (s : list A) (start stop : Z) : list A :=
  let lo := py_adjust start (len s) in
  let hi := py_adjust stop (len s) in
  take (Z.to_nat (hi - lo)) (drop (Z.to_nat lo) s).

(** ** The segmenter *)

Module Segmenter.

(** The [while start < len(text)] loop of [chunk_text]; [fuel] bounds the
    number of iterations and [None] says the loop was still running when
    it ran out. *)
Fixpoint chunk_loop (fuel : nat) (t : text) (chunk_size overlap : Z)
    (start : Z) (chunks : list text) : option (list text) :=
  match fuel with
  | O => None
  | S fuel' =>
      if start <? len t then
        let end_ := start + chunk_size in
        let chunks := chunks ++ [py_slice t start end_] in
        let start := end_ - overlap in
        chunk_loop fuel' t chunk_size overlap start chunks
      else Some chunks
  end.

Definition chunk_text (fuel : nat) (t : text) (chunk_size overlap : Z)
    : option (list text) :=
  chunk_loop fuel t chunk_size overlap 0 [].

Definition default_chunk_size : Z := 500.
Definition default_overlap : Z := 100.

(** [chunk_text(text)], as [admin_upload] calls it. *)
Definition chunk_text_default (fuel : nat) (t : text) : option (list text) :=
  chunk_text fuel t default_chunk_size default_overlap.

End Segmenter.

(** ** MongoDB collections *)

(** A stored field: the form values and identifiers are strings, a missing
    form value is stored as null, [uploaded_at] is a time stamp, and an
    update payload may carry numbers and booleans. An integer of a JSON
    body is unbounded, as Python reads it; the store takes the ones that
    fit 8 bytes ([Mongo.encodable]). Fractions, arrays and nested
    objects are outside this type: what is proved holds for bodies and
    stores of scalars. *)
Inductive value :=
  | VNull
  | VStr (s : string)
  | VInt (z : Z)
  | VBool (b : bool)
  | VDate (t : Z).

#[global] Instance value_eq_dec : EqDecision value.
Proof. solve_decision. Defined.

(** A document is a finite map from top-level field names to values. The
    store's own [_id] is left out: every read projects it away
    ([{"_id": 0}]) and no filter of the program mentions it. *)
Abbreviation doc := (gmap string value).

(** A collection, oldest document first. *)
Abbreviation collection := (list (gmap string value)).

(** An equality filter [{field: string, ...}]. *)
Abbreviation query := (gmap string string).

(** A call that returns or raises. *)
Inductive outcome (A : Type) :=
  | Returns (a : A)
  | Raises (exception : string).

Arguments Returns {A} _.
Arguments Raises {A} _.

Module Mongo.

(** [d] satisfies every equality of [q]. *)
Definition matches (q : query) (d : doc) : Prop :=
  map_Forall (λ k v, d !! k = Some (VStr v)) q.

#[global] Instance matches_dec q d : Decision (matches q d).
Proof. unfold matches. apply _. Defined.

(** [{field: {"$in": vs}}]: a null among [vs] also selects the documents
    that lack the field. *)
Definition matches_in (field : string) (vs : list value) (d : doc) : Prop :=
  match d !! field with
  | Some v => v ∈ vs
  | None => VNull ∈ vs
  end.

#[global] Instance matches_in_dec field vs d : Decision (matches_in field vs d).
Proof. unfold matches_in. destruct (d !! field); apply _. Defined.

Definition insert_one (d : doc) (c : collection) : collection := c ++ [d].

Definition find (q : query) (c : collection) : collection :=
  filter (matches q) c.

Definition find_in (field : string) (vs : list value) (c : collection)
    : collection :=
  filter (matches_in field vs) c.

(** [cursor.limit(n)]: zero means no limit, and a negative [n] asks for
    at most [-n] documents. *)
Definition limit (n : Z) (c : collection) : collection :=
  if n =? 0 then c else take (Z.to_nat (Z.abs n)) c.

(** Removes the first document that matches, if there is one. *)
Fixpoint delete_one (q : query) (c : collection) : collection :=
  match c with
  | [] => []
  | d :: c' => if decide (matches q d) then c' else d :: delete_one q c'
  end.

Definition delete_many (q : query) (c : collection) : collection :=
  filter (λ d, ¬ matches q d) c.

(** What the driver encodes as BSON: an integer of at most 8 bytes. On
    any other integer the encoder raises [OverflowError], before the
    store is reached. *)
Definition encodable (v : value) : Prop :=
  match v with
  | VInt z => - 2 ^ 63 ≤ z < 2 ^ 63
  | _ => True
  end.

#[global] Instance encodable_dec v : Decision (encodable v).
Proof. destruct v; simpl; apply _. Defined.

Definition encodable_doc (d : doc) : Prop :=
  map_Forall (λ _ v, encodable v) d.

(** [{"$set": data}] applied to the first document that matches: it takes
    the fields of [data], and keeps its other fields. *)
Fixpoint set_first (q : query) (data : doc) (c : collection) : collection :=
  match c with
  | [] => []
  | d :: c' =>
      if decide (matches q d) then (data ∪ d) :: c'
      else d :: set_first q data c'
  end.

(** [update_one(q, {"$set": data})]. The driver encodes [data] first; the
    store then refuses to set [_id], which is immutable, on a document
    that matches. A call that raises writes nothing. *)
Definition update_one (q : query) (data : doc) (c : collection)
    : outcome collection :=
  if decide (encodable_doc data) then
    if decide (is_Some (data !! "_id") ∧ find q c ≠ [])
    then Raises "WriteError"
    else Returns (set_first q data c)
  else Raises "OverflowError".

End Mongo.

(** ** Requests and responses *)

(** The uploaded file as the handler meets it: its name; [save_error],
    the [OSError] that [os.makedirs] or [file.save(path)] raises on the
    file system at hand (the directory of the path is missing, the path
    cannot be written, ...), [None] when the file is written;
    [read_error], the exception the reader of its format raises on the
    saved file ([UnicodeDecodeError] for a [.txt] that is not UTF-8, the
    parser's error for a damaged [.pdf] or [.docx]), [None] when it
    returns; and what each reader returns then ([PdfReader(...).pages]
    with [extract_text()] per page, [docx.Document(...).paragraphs], and
    the UTF-8 text of the file). *)
Record upload_file := {
  filename : string;
  save_error : option string;
  read_error : option string;
  pdf_pages : list (option text);
  docx_paragraphs : list text;
  txt_content : text
}.

(** [request.files] and [request.form] of [/admin/upload]. *)
Record upload_request := {
  files_file : option upload_file;
  form_class : option string;
  form_board : option string;
  form_subject : option string;
  form_group : option string
}.

(** [request.args] of the listing routes. [args_limit] is the [limit]
    parameter when it is given: [Some n] when [int(...)] reads it as [n],
    [None] when [int(...)] raises. *)
Record list_request := {
  args_board : option string;
  args_class : option string;
  args_subject : option string;
  args_group : option string;
  args_limit : option (option Z)
}.

Inductive response :=
  | JsonError (error : string) (status : Z)
  | JsonMessage (message : string)
  | JsonUploaded (message : string) (document_id : string)
  | JsonDocuments (docs : collection)
  | Unhandled (exception : string).

(** Truth value of [request.args.get(...)]: [None] and the empty string
    are false. *)
Definition truthy (o : option string) : bool :=
  match o with
  | Some s => negb (String.eqb s "")
  | None => false
  end.

(** A form value as it is stored: [None] becomes null. *)
Definition stored (o : option string) : value :=
  match o with
  | Some s => VStr s
  | None => VNull
  end.

(** [s.endswith(suffix)]. *)
Definition endswith (s suffix : string) : bool :=
  let n := String.length s in
  let k := String.length suffix in
  (k <=? n)%nat && String.eqb (String.substring (n - k) k s) suffix.

(** [os.path.join(a, b)] on POSIX for a directory [a] without a trailing
    slash: an absolute [b] replaces [a]. *)
Definition os_path_join (a b : string) : string :=
  if String.prefix "/" b then b else a +:+ "/" +:+ b.

Definition newline : ascii := ascii_of_nat 10.

Definition load_document (file_path : string) (f : upload_file) : text :=
  if endswith file_path ".pdf" then
    foldl (λ t page, t ++ default [] page) [] (pdf_pages f)
  else if endswith file_path ".docx" then
    foldl (λ t para, t ++ (para ++ [newline])) [] (docx_paragraphs f)
  else if endswith file_path ".txt" then
    txt_content f
  else [].

(** [file.save(path)]: with an empty file name the path is the directory
    [uploads/] that [os.makedirs] has just made, and opening it for
    writing raises; any other path is written or not as the file system
    has it. *)
Definition file_save (f : upload_file) : option string :=
  if String.eqb (filename f) "" then Some "IsADirectoryError"
  else save_error f.

(** The exception [load_document(path)] raises: a reader runs, and can
    fail, only for a path with one of the three extensions. *)
Definition load_document_raises (file_path : string) (f : upload_file)
    : option string :=
  if endswith file_path ".pdf" || endswith file_path ".docx"
     || endswith file_path ".txt"
  then read_error f
  else None.

(** The exception that ends [admin_upload] before any text is extracted:
    the one of [file.save(path)], or else the one of
    [load_document(path)]. *)
Definition upload_raises (file_path : string) (f : upload_file)
    : option string :=
  match file_save f with
  | Some exception => Some exception
  | None => load_document_raises file_path f
  end.

(** ** The pipeline *)

Section Pipeline.

(** The embedding model: [embedder.encode(text).tolist()] is a function of
    the text alone. *)
Variable embedding : Type.
Variable encode : text → embedding.

(** A record of the vector index: [{"id", "values", "metadata": {"text",
    "document_id"}}]. *)
Record vector := {
  vec_id : string;
  vec_values : embedding;
  metadata_text : text;
  metadata_document_id : string
}.

(** Everything the handlers read and write: the three collections, the
    vector index keyed by record id, and the texts the embedder has been
    called on, oldest first. *)
Record world := {
  documents_col : collection;
  stateboard_col : collection;
  cbse_col : collection;
  index : gmap string vector;
  embedder_calls : list text
}.

Definition set_documents_col (c : collection) (w : world) : world :=
  {| documents_col := c; stateboard_col := stateboard_col w;
     cbse_col := cbse_col w; index := index w;
     embedder_calls := embedder_calls w |}.

Definition set_stateboard_col (c : collection) (w : world) : world :=
  {| documents_col := documents_col w; stateboard_col := c;
     cbse_col := cbse_col w; index := index w;
     embedder_calls := embedder_calls w |}.

Definition set_cbse_col (c : collection) (w : world) : world :=
  {| documents_col := documents_col w; stateboard_col := stateboard_col w;
     cbse_col := c; index := index w;
     embedder_calls := embedder_calls w |}.

Definition set_index (i : gmap string vector) (w : world) : world :=
  {| documents_col := documents_col w; stateboard_col := stateboard_col w;
     cbse_col := cbse_col w; index := i;
     embedder_calls := embedder_calls w |}.

Definition set_embedder_calls (l : list text) (w : world) : world :=
  {| documents_col := documents_col w; stateboard_col := stateboard_col w;
     cbse_col := cbse_col w; index := index w;
     embedder_calls := l |}.

(** [index.upsert(vectors)]: each record is written under its id, a later
    one replacing an earlier one with the same id. *)
Definition index_upsert (vectors : list vector) (i : gmap string vector)
    : gmap string vector :=
  foldl (λ m v, <[vec_id v := v]> m) i vectors.

(** [index.delete(filter={"document_id": {"$eq": document_id}})]. *)
Definition index_delete (document_id : string) (i : gmap string vector)
    : gmap string vector :=
  filter (λ kv, metadata_document_id kv.2 ≠ document_id) i.

Definition get_embedding (t : text) (w : world) : embedding * world :=
  (encode t, set_embedder_calls (embedder_calls w ++ [t]) w).

(** The [for i, chunk in enumerate(chunks)] loop of [store_chunks], from
    index [i] on. *)
Fixpoint store_chunks_loop (i : nat) (chunks : list text)
    (document_id : string) (vectors : list vector) (w : world)
    : list vector * world :=
  match chunks with
  | [] => (vectors, w)
  | chunk :: chunks' =>
      let '(values, w) := get_embedding chunk w in
      let v := {| vec_id := document_id +:+ "-" +:+ pretty i;
                  vec_values := values;
                  metadata_text := chunk;
                  metadata_document_id := document_id |} in
      store_chunks_loop (S i) chunks' document_id (vectors ++ [v]) w
  end.

Definition store_chunks (chunks : list text) (document_id : string)
    (w : world) : world :=
  let '(vectors, w) := store_chunks_loop 0 chunks document_id [] w in
  set_index (index_upsert vectors (index w)) w.

(** [admin_upload]. [uuid] is the string [str(uuid.uuid4())] draws and
    [now] is [datetime.utcnow()]; [None] says the segmenter did not
    return within [fuel] iterations. An exception of [file.save] or
    [load_document] is not caught: the request ends there, before
    anything is stored. *)
Definition admin_upload (fuel : nat) (uuid : string) (now : Z)
    (req : upload_request) (w : world) : option (response * world) :=
  match files_file req with
  | None => Some (JsonError "No file uploaded" 400, w)
  | Some file =>
      let class_ := form_class req in
      let board := form_board req in
      let subject := form_subject req in
      let group := form_group req in
      let path := os_path_join "uploads" (filename file) in
      match upload_raises path file with
      | Some exception => Some (Unhandled exception, w)
      | None =>
      let t := load_document path file in
      match Segmenter.chunk_text_default fuel t with
      | None => None
      | Some chunks =>
          let document_id := uuid in
          let w := store_chunks chunks document_id w in
          let w :=
            set_documents_col
              (Mongo.insert_one
                 (<["document_id" := VStr document_id]>
                  (<["filename" := VStr (filename file)]>
                  (<["class" := stored class_]>
                  (<["board" := stored board]>
                  (<["subject" := stored subject]>
                  (<["group" := stored group]>
                  (<["uploaded_at" := VDate now]> ∅)))))))
                 (documents_col w)) w in
          let pointer : doc :=
            <["class" := stored class_]>
            (<["subject" := stored subject]>
            (<["group" := stored group]>
            (<["document_id" := VStr document_id]> ∅))) in
          let w :=
            if decide (board = Some "stateboard")
            then set_stateboard_col
                   (Mongo.insert_one pointer (stateboard_col w)) w
            else set_cbse_col (Mongo.insert_one pointer (cbse_col w)) w in
          Some (JsonUploaded "Document uploaded successfully" document_id, w)
      end
      end
  end.

(** The [limit] of a listing route: 20 when the parameter is absent. *)
Definition read_limit (req : list_request) : option Z :=
  match args_limit req with
  | None => Some 20
  | Some parsed => parsed
  end.

Definition add_filter (field : string) (o : option string) (q : query)
    : query :=
  match o with
  | Some s => if truthy o then <[field := s]> q else q
  | None => q
  end.

(** [get_documents]: the filters it reads are board, class and subject. *)
Definition get_documents (req : list_request) (w : world) : response :=
  let board := args_board req in
  let class_ := args_class req in
  let subject := args_subject req in
  match read_limit req with
  | None => Unhandled "ValueError"
  | Some limit =>
      let q := add_filter "subject" subject
                 (add_filter "class" class_
                    (add_filter "board" board ∅)) in
      JsonDocuments (Mongo.limit limit (Mongo.find q (documents_col w)))
  end.

(** [update_document]: [data] is the JSON object of the request body. An
    exception of [update_one] is not caught. A key with a dot, which the
    store reads as a path into a nested object, is outside the model: see
    [plain_payload]. *)
Definition update_document (document_id : string) (data : doc) (w : world)
    : response * world :=
  match Mongo.update_one {["document_id" := document_id]} data
          (documents_col w) with
  | Raises exception => (Unhandled exception, w)
  | Returns c =>
      (JsonMessage "Document updated successfully", set_documents_col c w)
  end.

Definition delete_document (document_id : string) (w : world)
    : response * world :=
  let q : query := {["document_id" := document_id]} in
  let w := set_documents_col (Mongo.delete_one q (documents_col w)) w in
  let w := set_stateboard_col (Mongo.delete_many q (stateboard_col w)) w in
  let w := set_cbse_col (Mongo.delete_many q (cbse_col w)) w in
  let w := set_index (index_delete document_id (index w)) w in
  (JsonMessage "Document deleted successfully", w).

(** The body shared by [get_stateboard_documents] and
    [get_cbse_documents], which differ in the pointer collection only. *)
Definition board_documents (pointers : collection) (req : list_request)
    (w : world) : response :=
  let class_ := args_class req in
  let subject := args_subject req in
  let group := args_group req in
  match read_limit req with
  | None => Unhandled "ValueError"
  | Some limit =>
      let q := add_filter "group" group
                 (add_filter "subject" subject
                    (add_filter "class" class_ ∅)) in
      let board_docs := Mongo.limit limit (Mongo.find q pointers) in
      match mapM (λ d : doc, d !! "document_id") board_docs with
      | None => Unhandled "KeyError"
      | Some document_ids =>
          JsonDocuments
            (Mongo.find_in "document_id" document_ids (documents_col w))
      end
  end.

Definition get_stateboard_documents (req : list_request) (w : world)
    : response :=
  board_documents (stateboard_col w) req w.

Definition get_cbse_documents (req : list_request) (w : world) : response :=
  board_documents (cbse_col w) req w.

End Pipeline.

Arguments vec_id {embedding} _.
Arguments vec_values {embedding} _.
Arguments metadata_text {embedding} _.
Arguments metadata_document_id {embedding} _.
Arguments documents_col {embedding} _.
Arguments stateboard_col {embedding} _.
Arguments cbse_col {embedding} _.
Arguments index {embedding} _.
Arguments embedder_calls {embedding} _.
Arguments set_documents_col {embedding} _ _.
Arguments set_stateboard_col {embedding} _ _.
Arguments set_cbse_col {embedding} _ _.
Arguments set_index {embedding} _ _.
Arguments set_embedder_calls {embedding} _ _.
Arguments index_upsert {embedding} _ _.
Arguments index_delete {embedding} _ _.
Arguments get_embedding {embedding} _ _ _.
Arguments store_chunks_loop {embedding} _ _ _ _ _ _.
Arguments store_chunks {embedding} _ _ _ _.
Arguments admin_upload {embedding} _ _ _ _ _ _.
Arguments get_documents {embedding} _ _.
Arguments update_document {embedding} _ _ _.
Arguments delete_document {embedding} _ _.
Arguments board_documents {embedding} _ _ _.
Arguments get_stateboard_documents {embedding} _ _.
Arguments get_cbse_documents {embedding} _ _.

(** ** Administrator accounts *)

Module Admins.

(** An equality filter whose values come from a JSON body. The values
    of a body are JSON scalars here; objects, which the store would read
    as query operators, and arrays are not modelled. *)
Abbreviation filter := (gmap string value).

(** A stored administrator: the [_id] the store gave it, written as
    [str(_id)], and its fields. *)
Abbreviation admin := (string * gmap string value)%type.

(** [admins_col], oldest first. *)
Abbreviation admins := (list (string * gmap string value)).

(** [d] satisfies every equality of [q]; an equality with null is also
    satisfied by a document that lacks the field. *)
Definition matches (q : filter) (d : doc) : Prop :=
  map_Forall (λ k v, d !! k = Some v ∨ (v = VNull ∧ d !! k = None)) q.

#[global] Instance matches_dec q d : Decision (matches q d).
Proof. unfold matches. apply _. Defined.

(** The first administrator that matches. *)
Definition first_match (q : filter) (c : admins) : option admin :=
  head (base.filter (λ a : admin, matches q a.2) c).

(** [find_one(q)]: the driver encodes the filter first. *)
Definition find_one (q : filter) (c : admins) : outcome (option admin) :=
  if decide (Mongo.encodable_doc q) then Returns (first_match q c)
  else Raises "OverflowError".

(** [insert_one(d)] of a document without [_id], which the store names
    [oid]. *)
Definition insert_one (oid : string) (d : doc) (c : admins)
    : outcome admins :=
  if decide (Mongo.encodable_doc d) then Returns (c ++ [(oid, d)])
  else Raises "OverflowError".

(** [find_one({"_id": ObjectId(admin_id)})]. *)
Definition find_by_id (admin_id : string) (c : admins) : option admin :=
  head (base.filter (λ a : admin, a.1 = admin_id) c).

(** [{"$set": data}] applied to the administrator [admin_id]. *)
Fixpoint set_by_id (admin_id : string) (data : doc) (c : admins)
    : admins :=
  match c with
  | [] => []
  | a :: c' =>
      if decide (a.1 = admin_id) then (a.1, data ∪ a.2) :: c'
      else a :: set_by_id admin_id data c'
  end.

(** [update_one({"_id": ObjectId(admin_id)}, {"$set": data})]: as
    [Mongo.update_one], the driver encodes [data] and the store refuses
    to set [_id] on the administrator it finds. *)
Definition update_by_id (admin_id : string) (data : doc) (c : admins)
    : outcome admins :=
  if decide (Mongo.encodable_doc data) then
    if decide (is_Some (data !! "_id") ∧ is_Some (find_by_id admin_id c))
    then Raises "WriteError"
    else Returns (set_by_id admin_id data c)
  else Raises "OverflowError".

Inductive reply :=
  | Error (error : string) (status : Z)
  | Message (message : string) (status : Z)
  | AccessToken (access_token : string)
  | Profile (username email role status : value)
  | Raised (exception : string).

(** [admin_register]. [data] is the JSON object of the body, [oid] the
    [_id] the insert assigns and [now] is [datetime.utcnow()]. A key
    missing from [data] raises [KeyError] where it is read, and a value
    the driver cannot encode raises at the call that sends it. *)
Definition admin_register (oid : string) (now : Z) (data : doc)
    (c : admins) : reply * admins :=
  match data !! "email" with
  | None => (Raised "KeyError", c)
  | Some email =>
      match find_one {["email" := email]} c with
      | Raises exception => (Raised exception, c)
      | Returns (Some _) => (Error "Admin already exists" 400, c)
      | Returns None =>
          match data !! "username" with
          | None => (Raised "KeyError", c)
          | Some username =>
              match data !! "password" with
              | None => (Raised "KeyError", c)
              | Some password =>
                  let admin : doc :=
                    <["username" := username]>
                    (<["email" := email]>
                    (<["password" := password]>
                    (<["role" := VStr "admin"]>
                    (<["status" := VStr "active"]>
                    (<["created_at" := VDate now]> ∅))))) in
                  match insert_one oid admin c with
                  | Raises exception => (Raised exception, c)
                  | Returns c' =>
                      (Message "Admin registered successfully" 201, c')
                  end
              end
          end
      end
  end.

Section Tokens.

(** [create_access_token(identity=...)] of the JWT extension. *)
Variable create_access_token : string → string.

Definition admin_login (data : doc) (c : admins) : reply :=
  match data !! "email" with
  | None => Raised "KeyError"
  | Some email =>
      match data !! "password" with
      | None => Raised "KeyError"
      | Some password =>
          match find_one (<["email" := email]> {["password" := password]})
                  c with
          | Raises exception => Raised exception
          | Returns None => Error "Invalid admin credentials" 401
          | Returns (Some admin) => AccessToken (create_access_token admin.1)
          end
      end
  end.

End Tokens.

Definition admin_logout : reply := Message "Admin logged out successfully" 200.

(** [admin_profile]. [admin_id] is [get_jwt_identity()], the identity of
    a token that [jwt_required] accepted. *)
Definition admin_profile (admin_id : string) (c : admins) : reply :=
  match find_by_id admin_id c with
  | None => Raised "TypeError"
  | Some admin =>
      match admin.2 !! "username", admin.2 !! "email",
            admin.2 !! "role", admin.2 !! "status" with
      | Some username, Some email, Some role, Some status =>
          Profile username email role status
      | _, _, _, _ => Raised "KeyError"
      end
  end.

Definition update_admin_profile (admin_id : string) (data : doc)
    (c : admins) : reply * admins :=
  match update_by_id admin_id data c with
  | Raises exception => (Raised exception, c)
  | Returns c' => (Message "Admin profile updated" 200, c')
  end.

End Admins.

(** ** Operators the properties are stated with *)

(** Ceiling of [a / b] for positive [b]. *)
Definition ceil_div (a b : Z) : Z := (a + b - 1) / b.

(** The window the [i]-th chunk is cut from: [t[i*(C-O) : i*(C-O)+C]]. *)
Definition window (t : text) (chunk_size overlap : Z) (i : nat) : text :=
  py_slice t (Z.of_nat i * (chunk_size - overlap))
             (Z.of_nat i * (chunk_size - overlap) + chunk_size).

(** The number of iterations the loop makes on a valid configuration. *)
Definition chunk_count (t : text) (chunk_size overlap : Z) : nat :=
  Z.to_nat (ceil_div (len t) (chunk_size - overlap)).

(** The chunk count the specification gives:
    [ceil(max(len(T) - O, 0) / (C - O))]. *)
Definition spec_chunk_count (length_T chunk_size overlap : Z) : Z :=
  ceil_div (Z.max (length_T - overlap) 0) (chunk_size - overlap).

(** Concatenation of [chunk[0 : step]] over the chunks, the last chunk
    taken whole. *)
Fixpoint stitch (step : Z) (chunks : list text) : text :=
  match chunks with
  | [] => []
  | [c] => c
  | c :: rest => py_slice c 0 step ++ stitch step rest
  end.

(** The record [store_chunks] builds for chunk [i] of a document. *)
Definition chunk_vector {embedding : Type} (encode : text → embedding)
    (document_id : string) (i : nat) (chunk : text) : vector embedding :=
  {| vec_id := document_id +:+ "-" +:+ pretty i;
     vec_values := encode chunk;
     metadata_text := chunk;
     metadata_document_id := document_id |}.

(** The canonical record [admin_upload] inserts. *)
Definition canonical_record (document_id : string) (now : Z)
    (req : upload_request) (file : upload_file) : doc :=
  <["document_id" := VStr document_id]>
  (<["filename" := VStr (filename file)]>
  (<["class" := stored (form_class req)]>
  (<["board" := stored (form_board req)]>
  (<["subject" := stored (form_subject req)]>
  (<["group" := stored (form_group req)]>
  (<["uploaded_at" := VDate now]> ∅)))))).

(** The pointer [admin_upload] inserts. *)
Definition category_pointer (document_id : string) (req : upload_request)
    : doc :=
  <["class" := stored (form_class req)]>
  (<["subject" := stored (form_subject req)]>
  (<["group" := stored (form_group req)]>
  (<["document_id" := VStr document_id]> ∅))).

(** The path [admin_upload] saves the file under and reads it from. *)
Definition saved_path (file : upload_file) : string :=
  os_path_join "uploads" (filename file).

(** The filter a board listing builds from its parameters. *)
Definition board_query (req : list_request) : query :=
  add_filter "group" (args_group req)
    (add_filter "subject" (args_subject req)
       (add_filter "class" (args_class req) ∅)).

(** The filter [get_documents] builds from its parameters. *)
Definition documents_query (req : list_request) : query :=
  add_filter "subject" (args_subject req)
    (add_filter "class" (args_class req)
       (add_filter "board" (args_board req) ∅)).

(** A field name that [{"$set": ...}] takes as the name of a top-level
    field: it is not empty, is not the immutable [_id], does not start
    with the operator sign [$], and has no dot, which would make it a
    path, and no NUL, which the driver refuses. *)
Definition plain_key (k : string) : Prop :=
  k ≠ "" ∧ k ≠ "_id" ∧ String.prefix "$" k = false
  ∧ ("."%char ∉ list_ascii_of_string k)
  ∧ (Ascii.zero ∉ list_ascii_of_string k).

#[global] Instance plain_key_dec k : Decision (plain_key k).
Proof. unfold plain_key. apply _. Defined.

(** An update payload that names at least one field, an empty [$set]
    being refused by older stores, with plain field names and values the
    driver encodes. *)
Definition plain_payload (data : doc) : Prop :=
  data ≠ ∅ ∧ map_Forall (λ k v, plain_key k ∧ Mongo.encodable v) data.

#[global] Instance plain_payload_dec data : Decision (plain_payload data).
Proof. unfold plain_payload. apply _. Defined.

(** Every pointer of both boards has a [document_id]. *)
Definition pointers_have_id {embedding : Type} (w : world embedding)
    : Prop :=
  Forall (λ p : doc, is_Some (p !! "document_id"))
    (stateboard_col w ++ cbse_col w).


(** No two administrators have the same [email] value. *)
Definition emails_unique (c : Admins.admins) : Prop :=
  ∀ email : value,
    (length (filter (λ a : Admins.admin, a.2 !! "email" = Some email) c)
     ≤ 1)%nat.

(** ** Concrete runs *)

Module Run.

(** A stand-in for the embedding model. *)
Definition encode (t : text) : nat := length t.

Definition abc : text := list_ascii_of_string "abc".

Definition notes : upload_file :=
  {| filename := "notes.txt"; save_error := None; read_error := None;
     pdf_pages := []; docx_paragraphs := []; txt_content := abc |}.

Definition upload (board group : option string) : upload_request :=
  {| files_file := Some notes; form_class := Some "10";
     form_board := board; form_subject := Some "Math";
     form_group := group |}.

Definition listing (group : option string) : list_request :=
  {| args_board := None; args_class := None; args_subject := None;
     args_group := group; args_limit := None |}.

Definition empty : world nat :=
  {| documents_col := []; stateboard_col := []; cbse_col := [];
     index := ∅; embedder_calls := [] |}.

(** The world after a handler that may run out of fuel; the world is
    unchanged when it does. *)
Definition after (r : option (response * world nat)) (w : world nat)
    : world nat :=
  match r with
  | Some (_, w') => w'
  | None => w
  end.

(** One stateboard document ["a"]. *)
Definition one : world nat :=
  after (admin_upload encode 4 "a" 0 (upload (Some "stateboard") (Some "A"))
           empty) empty.

(** Then a cbse document ["b"]. *)
Definition two : world nat :=
  after (admin_upload encode 4 "b" 1 (upload (Some "cbse") (Some "A")) one)
    one.

(** Then the record of ["a"] is given the identifier ["b"]. *)
Definition renamed : world nat :=
  (update_document "a" {["document_id" := VStr "b"]} two).2.

End Run.

(** A file of a format [load_document] does not read, and accounts. *)
Module RunFiles.

Definition binary : upload_file :=
  {| filename := "notes.bin"; save_error := None; read_error := None;
     pdf_pages := []; docx_paragraphs := []; txt_content := Run.abc |}.

Definition upload_binary : upload_request :=
  {| files_file := Some binary; form_class := Some "10";
     form_board := None; form_subject := None; form_group := None |}.

(** The world after [binary] is uploaded as document ["c"]. *)
Definition after_binary : world nat :=
  Run.after (admin_upload Run.encode 1 "c" 2 upload_binary Run.one) Run.one.

(** The file part of a form that was sent with no file chosen: its name
    is empty. *)
Definition unnamed : upload_file :=
  {| filename := ""; save_error := None; read_error := None;
     pdf_pages := []; docx_paragraphs := []; txt_content := Run.abc |}.

Definition upload_unnamed (board : option string) : upload_request :=
  {| files_file := Some unnamed; form_class := Some "10";
     form_board := board; form_subject := Some "Math";
     form_group := Some "A" |}.

End RunFiles.

Module RunAccounts.

Definition ann : doc :=
  <["username" := VStr "ann"]>
  (<["email" := VStr "ann@school"]>
  (<["password" := VStr "secret"]>
  (<["role" := VStr "owner"]> ∅))).

(** [ann] registered in an empty collection. *)
Definition registered : Admins.admins :=
  (Admins.admin_register "id1" 0 ann []).2.

Definition token (identity : string) : string := "token:" +:+ identity.

(** An integer that needs a ninth byte. *)
Definition large : value := VInt (2 ^ 63).

End RunAccounts.

(** * Properties *)

(** ** Slices *)

Lemma len_nonneg {A} (s : list A) : 0 ≤ len s.
Proof. unfold len. lia. Qed.

Lemma take_clip {A} (l : list A) (n : nat) :
  take n l = take (n `min` length l) l.
Proof.
  destruct (decide (n ≤ length l)%nat) as [Hle|Hgt].
  - by rewrite Nat.min_l.
  - rewrite Nat.min_r by lia. rewrite !take_ge; [done|lia..].
Qed.

(** A slice with bounds [0 <= a <= b] is [take (b - a)] after [drop a]. *)
Lemma py_slice_nonneg {A} (s : list A) (a b : Z) :
  0 ≤ a → a ≤ b →
  py_slice s a b = take (Z.to_nat (b - a)) (drop (Z.to_nat a) s).
Proof.
  intros Ha Hab. unfold py_slice, py_adjust.
  pose proof (len_nonneg s) as Hlen.
  destruct (Z.ltb_spec a 0) as [?|_]; [lia|].
  destruct (Z.ltb_spec b 0) as [?|_]; [lia|].
  destruct (decide (a ≤ len s)) as [Hin|Hout].
  - rewrite (Z.min_l a) by done.
    rewrite (take_clip _ (Z.to_nat (b - a))). rewrite length_drop.
    f_equal. unfold len in *. lia.
  - rewrite (Z.min_r a) by lia. rewrite (Z.min_r b) by lia.
    rewrite !drop_ge; [|unfold len in *; lia..].
    by rewrite !take_nil.
Qed.

Lemma py_slice_length {A} (s : list A) (a b : Z) :
  0 ≤ a → a ≤ b →
  len (py_slice s a b) = Z.min (b - a) (Z.max (len s - a) 0).
Proof.
  intros Ha Hab. rewrite py_slice_nonneg by done.
  unfold len. rewrite length_take, length_drop. lia.
Qed.

Lemma py_slice_substring {A} (s : list A) (a b : Z) :
  0 ≤ a → a ≤ b →
  s = take (Z.to_nat a) s ++ py_slice s a b ++ drop (Z.to_nat b) s.
Proof.
  intros Ha Hab. rewrite py_slice_nonneg by done.
  replace (Z.to_nat b) with (Z.to_nat a + Z.to_nat (b - a))%nat by lia.
  rewrite <- drop_drop.
  by rewrite (take_drop (Z.to_nat (b - a))), take_drop.
Qed.

(** ** The segmenter on a valid configuration *)

Lemma ceil_div_bounds (a b : Z) :
  0 < b → (ceil_div a b - 1) * b < a ∧ a ≤ ceil_div a b * b.
Proof.
  intros Hb. unfold ceil_div.
  pose proof (Z.div_mod (a + b - 1) b ltac:(lia)) as Hdm.
  pose proof (Z.mod_pos_bound (a + b - 1) b Hb) as Hr.
  nia.
Qed.

Lemma ceil_div_nonneg (a b : Z) : 0 < b → 0 ≤ a → 0 ≤ ceil_div a b.
Proof. intros Hb Ha. unfold ceil_div. apply Z.div_pos; lia. Qed.

Lemma ceil_div_le (a b : Z) : 0 < b → 0 ≤ a → ceil_div a b ≤ a.
Proof.
  intros Hb Ha. pose proof (ceil_div_bounds a b Hb) as [Hlo _]. nia.
Qed.

Section ValidConfiguration.

Variable t : text.
Variables chunk_size overlap : Z.
Hypothesis Hvalid : 0 ≤ overlap < chunk_size.

Local Abbreviation step := (chunk_size - overlap).
Local Abbreviation count := (chunk_count t chunk_size overlap).

Lemma chunk_count_le : (count ≤ length t)%nat.
Proof.
  unfold chunk_count.
  pose proof (ceil_div_le (len t) step ltac:(lia)
                (len_nonneg t)) as Hle.
  unfold len in *. lia.
Qed.

(** An index below [chunk_count] starts inside the text, and
    [chunk_count] itself starts at or after its end. *)
Lemma start_inside (k : nat) :
  (k < count)%nat ↔ Z.of_nat k * step < len t.
Proof.
  unfold chunk_count.
  pose proof (ceil_div_bounds (len t) step ltac:(lia))
    as [Hlo Hhi].
  pose proof (ceil_div_nonneg (len t) step ltac:(lia)
                (len_nonneg t)) as Hn.
  split; intros Hk; [nia|].
  apply Nat2Z.inj_lt. rewrite Z2Nat.id by done. nia.
Qed.

Lemma chunk_loop_from (m : nat) :
  ∀ (k fuel : nat) (chunks : list text),
    (k + m = count)%nat → (m < fuel)%nat →
    Segmenter.chunk_loop fuel t chunk_size overlap (Z.of_nat k * step) chunks
    = Some (chunks ++ map (window t chunk_size overlap) (seq k m)).
Proof.
  induction m as [|m IH]; intros k fuel chunks Hk Hfuel;
    (destruct fuel as [|fuel]; [lia|]); simpl.
  - destruct (Z.ltb_spec (Z.of_nat k * step) (len t)) as [Hin|_].
    + apply start_inside in Hin. lia.
    + by rewrite app_nil_r.
  - destruct (Z.ltb_spec (Z.of_nat k * step) (len t)) as [_|Hout].
    + replace (Z.of_nat k * step + chunk_size - overlap)
        with (Z.of_nat (S k) * step) by lia.
      rewrite IH by lia. by rewrite <- app_assoc.
    + assert (k < count)%nat as Hin by lia.
      apply start_inside in Hin. lia.
Qed.

(** With more fuel than characters, the call returns the windows in
    order. *)
Lemma chunk_text_windows (fuel : nat) :
  (length t < fuel)%nat →
  Segmenter.chunk_text fuel t chunk_size overlap
  = Some (map (window t chunk_size overlap) (seq 0 count)).
Proof.
  intros Hfuel. unfold Segmenter.chunk_text.
  pose proof chunk_count_le as Hle.
  change 0 with (Z.of_nat 0 * step).
  by rewrite (chunk_loop_from count) by lia.
Qed.

Lemma window_inside (k : nat) :
  (k < count)%nat →
  window t chunk_size overlap k
  = take (Z.to_nat chunk_size) (drop (Z.to_nat (Z.of_nat k * step)) t).
Proof.
  intros Hk. unfold window.
  rewrite py_slice_nonneg by nia.
  f_equal. lia.
Qed.

Lemma stitch_windows (m : nat) :
  ∀ k : nat,
    (k + m = count)%nat →
    stitch step (map (window t chunk_size overlap) (seq k m))
    = drop (Z.to_nat (Z.of_nat k * step)) t.
Proof.
  induction m as [|m IH]; intros k Hk.
  - simpl. rewrite drop_ge; [done|].
    assert (¬ Z.of_nat k * step < len t) as Hout.
    { rewrite <- start_inside. lia. }
    unfold len in Hout. lia.
  - destruct m as [|m].
    + simpl. rewrite window_inside by lia.
      apply take_ge. rewrite length_drop.
      assert (¬ Z.of_nat (S k) * step < len t) as Hout.
      { rewrite <- start_inside. lia. }
      unfold len in Hout. lia.
    + change (stitch step (map (window t chunk_size overlap) (seq k (S (S m)))))
        with (py_slice (window t chunk_size overlap k) 0 step
              ++ stitch step
                   (map (window t chunk_size overlap) (seq (S k) (S m)))).
      rewrite IH by lia.
      rewrite py_slice_nonneg by lia.
      rewrite window_inside by lia.
      rewrite drop_0, Z.sub_0_r, take_take.
      rewrite Nat.min_l by lia.
      replace (Z.of_nat (S k) * step) with (Z.of_nat k * step + step) by lia.
      rewrite Z2Nat.inj_add by nia.
      rewrite <- drop_drop. apply take_drop.
Qed.

End ValidConfiguration.

(** ** The segmenter on an invalid configuration *)

Lemma chunk_loop_runs_on (fuel : nat) :
  ∀ (t : text) (chunk_size overlap start : Z) (chunks : list text),
    chunk_size ≤ overlap → start ≤ 0 → t ≠ [] →
    Segmenter.chunk_loop fuel t chunk_size overlap start chunks = None.
Proof.
  induction fuel as [|fuel IH]; intros t chunk_size overlap start chunks
    Hcfg Hstart Ht; [done|].
  simpl. destruct (Z.ltb_spec start (len t)) as [_|Hout].
  - apply IH; [done|lia|done].
  - destruct t; [done|]. unfold len in Hout. simpl in Hout. lia.
Qed.

(** ** Claims about the segmenter *)

(** C7. For every text and every configuration with
    [chunk_size > overlap >= 0], [chunk_text] returns: there is one finite
    list of chunks that every run with more iterations allowed than the
    text has characters ends with. *)
Theorem chunk_text_terminates (t : text) (chunk_size overlap : Z) :
  0 ≤ overlap < chunk_size →
  ∃ chunks : list text,
    ∀ fuel : nat, (length t < fuel)%nat →
      Segmenter.chunk_text fuel t chunk_size overlap = Some chunks.
Proof.
  intros Hvalid.
  exists (map (window t chunk_size overlap)
            (seq 0 (chunk_count t chunk_size overlap))).
  intros fuel Hfuel. by apply chunk_text_windows.
Qed.

(** C6. For [chunk_size > overlap >= 0], chunk [i] of the result is
    [t[i*(C-O) : i*(C-O)+C]], and concatenating [chunk[0 : C-O]] over the
    chunks, the last one taken whole, gives the text back. *)
Theorem chunk_text_reconstructs (fuel : nat) (t : text)
    (chunk_size overlap : Z) :
  0 ≤ overlap < chunk_size → (length t < fuel)%nat →
  ∃ chunks : list text,
    Segmenter.chunk_text fuel t chunk_size overlap = Some chunks
    ∧ (∀ (i : nat) (c : text), chunks !! i = Some c →
         c = py_slice t (Z.of_nat i * (chunk_size - overlap))
                        (Z.of_nat i * (chunk_size - overlap) + chunk_size))
    ∧ stitch (chunk_size - overlap) chunks = t.
Proof.
  intros Hvalid Hfuel. eexists. split; [by apply chunk_text_windows|]. split.
  - intros i c Hi. rewrite list_lookup_fmap in Hi.
    destruct (seq 0 (chunk_count t chunk_size overlap) !! i) as [j|] eqn:Hj;
      [|done].
    apply lookup_seq in Hj as [-> _]. simpl in Hi. by inversion Hi.
  - rewrite (stitch_windows t chunk_size overlap Hvalid
               (chunk_count t chunk_size overlap) 0) by lia.
    by rewrite Z.mul_0_l, drop_0.
Qed.

(** C3, as amended. For [chunk_size > overlap >= 0] the result has exactly
    [ceil(len(T) / (C - O))] chunks; the empty text gives no chunk, and a
    text with [0 < len(T) <= C - O] gives one chunk, the text itself. *)
Theorem chunk_text_count (fuel : nat) (t : text) (chunk_size overlap : Z) :
  0 ≤ overlap < chunk_size → (length t < fuel)%nat →
  ∃ chunks : list text,
    Segmenter.chunk_text fuel t chunk_size overlap = Some chunks
    ∧ len chunks = ceil_div (len t) (chunk_size - overlap)
    ∧ (t = [] → chunks = [])
    ∧ (0 < len t ≤ chunk_size - overlap → chunks = [t]).
Proof.
  intros Hvalid Hfuel. eexists. split; [by apply chunk_text_windows|].
  pose proof (ceil_div_nonneg (len t) (chunk_size - overlap) ltac:(lia)
                (len_nonneg t)) as Hn.
  pose proof (ceil_div_bounds (len t) (chunk_size - overlap) ltac:(lia))
    as [Hlo Hhi].
  split; [|split].
  - unfold len at 1. rewrite length_map, length_seq. unfold chunk_count. lia.
  - intros ->. change (len []) with 0 in *.
    assert (chunk_count [] chunk_size overlap = 0%nat) as ->; [|done].
    unfold chunk_count. change (len []) with 0. nia.
  - intros [Hpos Hshort].
    assert (chunk_count t chunk_size overlap = 1%nat) as ->.
    { unfold chunk_count. f_equal. nia. }
    simpl. unfold window. rewrite py_slice_nonneg by lia.
    rewrite Z.mul_0_l. simpl. rewrite drop_0.
    f_equal. apply take_ge. unfold len in *. lia.
Qed.

(** C4, as amended. [chunk_text] does not check its configuration. With
    [overlap >= chunk_size] it returns the empty list for the empty text,
    and on any other text the loop is still running after any number of
    iterations. *)
Theorem chunk_text_invalid_configuration (t : text)
    (chunk_size overlap : Z) :
  chunk_size ≤ overlap →
  (t = [] → ∀ fuel : nat, (0 < fuel)%nat →
     Segmenter.chunk_text fuel t chunk_size overlap = Some [])
  ∧ (t ≠ [] → ∀ fuel : nat,
       Segmenter.chunk_text fuel t chunk_size overlap = None).
Proof.
  intros Hcfg. split.
  - intros -> fuel Hfuel. destruct fuel as [|fuel]; [lia|done].
  - intros Ht fuel. by apply chunk_loop_runs_on.
Qed.

Lemma window_is_chunk (t : text) (chunk_size overlap : Z) (k : nat) :
  0 ≤ overlap < chunk_size → (k < chunk_count t chunk_size overlap)%nat →
  window t chunk_size overlap k ≠ []
  ∧ len (window t chunk_size overlap k) ≤ chunk_size
  ∧ ∃ before after : text,
      t = before ++ window t chunk_size overlap k ++ after.
Proof.
  intros Hvalid Hk.
  pose proof (proj1 (start_inside t chunk_size overlap Hvalid k) Hk) as Hin.
  assert (0 ≤ Z.of_nat k * (chunk_size - overlap)) as Hstart by nia.
  pose proof (py_slice_length t _ (Z.of_nat k * (chunk_size - overlap)
                                   + chunk_size) Hstart ltac:(lia)) as Hlen.
  fold (window t chunk_size overlap k) in Hlen.
  split; [|split].
  - intros Hnil. rewrite Hnil in Hlen. change (len []) with 0 in Hlen. lia.
  - lia.
  - eexists _, _. unfold window. apply py_slice_substring; lia.
Qed.

(** ** Writes of the ingestion path *)

Section Ingestion.

Variable embedding : Type.
Variable encode : text → embedding.

Lemma store_chunks_loop_frame (chunks : list text) :
  ∀ (i : nat) (document_id : string) (vectors : list (vector embedding))
    (w : world embedding),
    let w' := (store_chunks_loop encode i chunks document_id vectors w).2 in
    documents_col w' = documents_col w
    ∧ stateboard_col w' = stateboard_col w
    ∧ cbse_col w' = cbse_col w
    ∧ index w' = index w
    ∧ embedder_calls w' = embedder_calls w ++ chunks.
Proof.
  induction chunks as [|chunk chunks IH]; intros i document_id vectors w.
  - simpl. by rewrite app_nil_r.
  - simpl. edestruct IH as (Hd & Hs & Hc & Hi & He).
    rewrite Hd, Hs, Hc, Hi, He. simpl. by rewrite <- app_assoc.
Qed.

Lemma store_chunks_frame (chunks : list text) (document_id : string)
    (w : world embedding) :
  let w' := store_chunks encode chunks document_id w in
  documents_col w' = documents_col w
  ∧ stateboard_col w' = stateboard_col w
  ∧ cbse_col w' = cbse_col w
  ∧ embedder_calls w' = embedder_calls w ++ chunks.
Proof.
  unfold store_chunks.
  pose proof (store_chunks_loop_frame chunks 0 document_id [] w) as Hloop.
  destruct (store_chunks_loop encode 0 chunks document_id [] w)
    as [vectors w1].
  simpl in *. tauto.
Qed.

End Ingestion.

Lemma default_chunks_of_upload (fuel : nat) (t : text) :
  (length t < fuel)%nat →
  ∃ chunks : list text,
    Segmenter.chunk_text_default fuel t = Some chunks
    ∧ Forall (λ c : text, c ≠ []) chunks.
Proof.
  intros Hfuel. unfold Segmenter.chunk_text_default.
  assert (0 ≤ Segmenter.default_overlap < Segmenter.default_chunk_size)
    as Hvalid by (by vm_compute).
  eexists. split; [by apply chunk_text_windows|].
  apply Forall_forall. intros c Hc.
  apply list_elem_of_fmap in Hc as (k & -> & Hk).
  apply elem_of_seq in Hk.
  apply (window_is_chunk t _ _ k Hvalid). lia.
Qed.

(** What a request can come to: without a file it is refused; with a
    file that cannot be saved or read it ends in the exception; otherwise
    the chunks are stored, the record inserted and the pointer routed. In
    the first two cases nothing is written. *)
Lemma admin_upload_cases {embedding : Type} (encode : text → embedding)
    (fuel : nat) (uuid : string) (now : Z) (req : upload_request)
    (w : world embedding) (resp : response) (w' : world embedding) :
  admin_upload encode fuel uuid now req w = Some (resp, w') →
  (w' = w ∧ ∀ message document_id, resp ≠ JsonUploaded message document_id)
  ∨ ∃ (file : upload_file) (chunks : list text),
      files_file req = Some file
      ∧ upload_raises (os_path_join "uploads" (filename file)) file = None
      ∧ Segmenter.chunk_text_default fuel
          (load_document (os_path_join "uploads" (filename file)) file)
        = Some chunks
      ∧ resp = JsonUploaded "Document uploaded successfully" uuid
      ∧ documents_col w'
        = documents_col w
          ++ [<["document_id" := VStr uuid]>
              (<["filename" := VStr (filename file)]>
              (<["class" := stored (form_class req)]>
              (<["board" := stored (form_board req)]>
              (<["subject" := stored (form_subject req)]>
              (<["group" := stored (form_group req)]>
              (<["uploaded_at" := VDate now]> ∅))))))]
      ∧ index w' = index (store_chunks encode chunks uuid w)
      ∧ embedder_calls w' = embedder_calls w ++ chunks
      ∧ let pointer : doc :=
          <["class" := stored (form_class req)]>
          (<["subject" := stored (form_subject req)]>
          (<["group" := stored (form_group req)]>
          (<["document_id" := VStr uuid]> ∅))) in
        if decide (form_board req = Some "stateboard")
        then stateboard_col w' = stateboard_col w ++ [pointer]
             ∧ cbse_col w' = cbse_col w
        else cbse_col w' = cbse_col w ++ [pointer]
             ∧ stateboard_col w' = stateboard_col w.
Proof.
  unfold admin_upload. destruct (files_file req) as [file|] eqn:Hfile.
  2:{ intros [= <- <-]. by left. }
  destruct (upload_raises _ file) as [exception|] eqn:Hraise.
  { intros [= <- <-]. by left. }
  destruct (Segmenter.chunk_text_default fuel _) as [chunks|] eqn:Hchunks;
    [|done].
  intros [= <- <-]. right. exists file, chunks.
  destruct (store_chunks_frame embedding encode chunks uuid w)
    as (Hd & Hs & Hc & He).
  do 4 (split; [done|]).
  case_decide; simpl; rewrite Hd, Hs, Hc, He; done.
Qed.

(** An upload with a file that is saved and read is answered with the new
    identifier, given fuel for the segmenter. *)
Lemma admin_upload_completes {embedding : Type} (encode : text → embedding)
    (fuel : nat) (uuid : string) (now : Z) (req : upload_request)
    (file : upload_file) (w : world embedding) :
  files_file req = Some file →
  upload_raises (os_path_join "uploads" (filename file)) file = None →
  (length (load_document (os_path_join "uploads" (filename file)) file)
   < fuel)%nat →
  ∃ w' : world embedding,
    admin_upload encode fuel uuid now req w
    = Some (JsonUploaded "Document uploaded successfully" uuid, w').
Proof.
  intros Hfile Hraise Hfuel. unfold admin_upload. rewrite Hfile, Hraise.
  destruct (default_chunks_of_upload fuel _ Hfuel) as (chunks & -> & _).
  by eexists.
Qed.

(** An upload whose file cannot be saved or read ends in the exception,
    and the stores are as they were. *)
Lemma admin_upload_raises {embedding : Type} (encode : text → embedding)
    (fuel : nat) (uuid : string) (now : Z) (req : upload_request)
    (file : upload_file) (w : world embedding) (exception : string) :
  files_file req = Some file →
  upload_raises (os_path_join "uploads" (filename file)) file
  = Some exception →
  admin_upload encode fuel uuid now req w = Some (Unhandled exception, w).
Proof. intros Hfile Hraise. unfold admin_upload. by rewrite Hfile, Hraise. Qed.

(** ** Claims about ingestion *)

(** C1, as amended. An upload that is answered with the new
    [document_id] has
    inserted exactly one pointer [{class, subject, group, document_id}]:
    at the end of the stateboard collection, the cbse collection left as
    it was, when the board is ["stateboard"]; at the end of the cbse
    collection, the stateboard collection left as it was, for any other
    board, a missing or empty one included. An upload whose file is saved
    and read is answered so, given fuel for the segmenter; an upload whose
    file cannot be saved or read ends in the exception and inserts no
    pointer in either collection. *)
Theorem upload_routes_pointer {embedding : Type} (encode : text → embedding)
    (fuel : nat) (uuid : string) (now : Z) (req : upload_request)
    (w : world embedding) :
  (∀ (message document_id : string) (w' : world embedding),
     admin_upload encode fuel uuid now req w
     = Some (JsonUploaded message document_id, w') →
     document_id = uuid
     ∧ let pointer : doc :=
         <["class" := stored (form_class req)]>
         (<["subject" := stored (form_subject req)]>
         (<["group" := stored (form_group req)]>
         (<["document_id" := VStr uuid]> ∅))) in
       (form_board req = Some "stateboard" →
          stateboard_col w' = stateboard_col w ++ [pointer]
          ∧ cbse_col w' = cbse_col w)
       ∧ (form_board req ≠ Some "stateboard" →
            cbse_col w' = cbse_col w ++ [pointer]
            ∧ stateboard_col w' = stateboard_col w))
  ∧ (∀ file : upload_file,
       files_file req = Some file →
       upload_raises (os_path_join "uploads" (filename file)) file = None →
       (length (load_document (os_path_join "uploads" (filename file)) file)
        < fuel)%nat →
       ∃ w' : world embedding,
         admin_upload encode fuel uuid now req w
         = Some (JsonUploaded "Document uploaded successfully" uuid, w'))
  ∧ (∀ (file : upload_file) (exception : string),
       files_file req = Some file →
       upload_raises (os_path_join "uploads" (filename file)) file
       = Some exception →
       admin_upload encode fuel uuid now req w
       = Some (Unhandled exception, w)).
Proof.
  split; [|split].
  - intros message document_id w' Hup.
    destruct (admin_upload_cases encode _ _ _ _ _ _ _ Hup)
      as [[_ Hno]|(file & chunks & _ & _ & _ & [= _ <-] & _ & _ & _ & Hp)].
    { by destruct (Hno message document_id). }
    split; [done|]. simpl in *.
    split; intros Hboard; case_decide; done.
  - intros file. apply admin_upload_completes.
  - intros file exception. apply admin_upload_raises.
Qed.

(** C10. For [chunk_size > overlap >= 0] every chunk is a non-empty
    substring of the text, of length at most [chunk_size]; and an upload
    calls the embedder on texts none of which is empty: on the chunks of
    the extracted text, in order, when the file is saved and read, and on
    nothing when it is not. *)
Theorem chunks_are_nonempty_substrings {embedding : Type}
    (encode : text → embedding) (fuel : nat) (t : text)
    (chunk_size overlap : Z) (uuid : string) (now : Z)
    (req : upload_request) (file : upload_file) (w : world embedding) :
  (0 ≤ overlap < chunk_size → (length t < fuel)%nat →
   ∃ chunks : list text,
     Segmenter.chunk_text fuel t chunk_size overlap = Some chunks
     ∧ Forall (λ c : text,
                 c ≠ [] ∧ len c ≤ chunk_size
                 ∧ ∃ before after : text, t = before ++ c ++ after) chunks)
  ∧ (files_file req = Some file →
     (length (load_document (os_path_join "uploads" (filename file)) file)
      < fuel)%nat →
     ∃ (resp : response) (w' : world embedding) (calls : list text),
       admin_upload encode fuel uuid now req w = Some (resp, w')
       ∧ (upload_raises (os_path_join "uploads" (filename file)) file = None →
          Segmenter.chunk_text_default fuel
            (load_document (os_path_join "uploads" (filename file)) file)
          = Some calls)
       ∧ (upload_raises (os_path_join "uploads" (filename file)) file ≠ None →
          calls = [])
       ∧ embedder_calls w' = embedder_calls w ++ calls
       ∧ Forall (λ c : text, c ≠ []) calls).
Proof.
  split.
  - intros Hvalid Hfuel. eexists. split; [by apply chunk_text_windows|].
    apply Forall_forall. intros c Hc.
    apply list_elem_of_fmap in Hc as (k & -> & Hk).
    apply elem_of_seq in Hk.
    apply window_is_chunk; [done|lia].
  - intros Hfile Hfuel. unfold admin_upload. rewrite Hfile.
    destruct (upload_raises _ file) as [exception|] eqn:Hraise.
    { exists (Unhandled exception), w, [].
      split; [done|]. split; [done|]. split; [done|].
      split; [by rewrite app_nil_r|constructor]. }
    destruct (default_chunks_of_upload fuel _ Hfuel) as (chunks & -> & Hne).
    destruct (store_chunks_frame embedding encode chunks uuid w)
      as (_ & _ & _ & He).
    eexists _, _, chunks. split; [done|]. split; [done|]. split; [done|].
    split; [|done].
    case_decide; simpl; exact He.
Qed.

(** ** Collections *)

Lemma matches_document_id (document_id : string) (d : doc) :
  Mongo.matches {["document_id" := document_id]} d
  ↔ d !! "document_id" = Some (VStr document_id).
Proof. unfold Mongo.matches. by rewrite map_Forall_singleton. Qed.

(** [delete_one] takes the first match away and nothing else. *)
Lemma find_delete_one (q : query) (c : collection) :
  Mongo.find q (Mongo.delete_one q c) = tail (Mongo.find q c).
Proof.
  unfold Mongo.find. induction c as [|d c IH]; [done|]. simpl.
  destruct (decide (Mongo.matches q d)) as [Hm|Hm].
  - by rewrite filter_cons_True.
  - by rewrite !filter_cons_False.
Qed.


Lemma delete_one_none (q : query) (c : collection) :
  Mongo.find q c = [] → Mongo.delete_one q c = c.
Proof.
  unfold Mongo.find. induction c as [|d c IH]; [done|]. simpl.
  destruct (decide (Mongo.matches q d)) as [Hm|Hm].
  - by rewrite filter_cons_True.
  - rewrite filter_cons_False by done. intros Hc. by rewrite IH.
Qed.

Lemma find_delete_many (q : query) (c : collection) :
  Mongo.find q (Mongo.delete_many q c) = [].
Proof.
  unfold Mongo.find, Mongo.delete_many.
  induction c as [|d c IH]; [done|].
  destruct (decide (Mongo.matches q d)) as [Hm|Hm].
  - rewrite (filter_cons_False (λ d, ¬ Mongo.matches q d))
      by (intros Hn; by apply Hn).
    exact IH.
  - rewrite (filter_cons_True (λ d, ¬ Mongo.matches q d)) by done.
    by rewrite filter_cons_False.
Qed.

Lemma delete_many_none (q : query) (c : collection) :
  Mongo.find q c = [] → Mongo.delete_many q c = c.
Proof.
  unfold Mongo.find, Mongo.delete_many.
  induction c as [|d c IH]; [done|].
  destruct (decide (Mongo.matches q d)) as [Hm|Hm].
  - by rewrite filter_cons_True.
  - rewrite filter_cons_False by done. intros Hc.
    rewrite (filter_cons_True (λ d, ¬ Mongo.matches q d)) by done.
    by rewrite IH.
Qed.

Lemma find_nil_iff (q : query) (c : collection) :
  Mongo.find q c = [] ↔ Forall (λ d, ¬ Mongo.matches q d) c.
Proof.
  unfold Mongo.find. rewrite Forall_forall. split.
  - intros Hnil d Hd Hm.
    assert (d ∈ filter (Mongo.matches q) c) as Hin
      by (by apply list_elem_of_filter).
    rewrite Hnil in Hin. by apply not_elem_of_nil in Hin.
  - intros Hall. destruct (filter (Mongo.matches q) c) as [|d c'] eqn:Hf;
      [done|].
    assert (d ∈ filter (Mongo.matches q) c) as Hin
      by (rewrite Hf; apply list_elem_of_here).
    apply list_elem_of_filter in Hin as [Hm Hd]. by destruct (Hall d Hd).
Qed.

Lemma find_limit_sub (q : query) (n : Z) (c : collection) (d : doc) :
  d ∈ Mongo.limit n (Mongo.find q c) → d ∈ c.
Proof.
  unfold Mongo.limit, Mongo.find. intros Hd.
  assert (d ∈ filter (Mongo.matches q) c) as Hin.
  { destruct (n =? 0); [done|].
    apply elem_of_take in Hd as (i & Hi & _).
    apply list_elem_of_lookup. by exists i. }
  by apply list_elem_of_filter in Hin as [_ ?].
Qed.


(** ** Deletion, update and listing *)

Section Stores.

Context {embedding : Type}.
Implicit Types (w : world embedding) (i : gmap string (vector embedding)).

Lemma index_delete_lookup (document_id : string) i (k : string)
    (v : vector embedding) :
  index_delete document_id i !! k = Some v →
  i !! k = Some v ∧ metadata_document_id v ≠ document_id.
Proof.
  unfold index_delete. intros Hk.
  by apply map_lookup_filter_Some in Hk.
Qed.

Lemma index_delete_none (document_id : string) i :
  (∀ k v, i !! k = Some v → metadata_document_id v ≠ document_id) →
  index_delete document_id i = i.
Proof.
  intros Hnone. unfold index_delete. apply map_filter_id.
  intros k v Hk. simpl. by eapply Hnone.
Qed.

(** A board listing returns no document with an identifier that no
    pointer of the board carries. *)
Lemma board_documents_without (document_id : string) (pointers : collection)
    (req : list_request) w (docs : collection) :
  Mongo.find {["document_id" := document_id]} pointers = [] →
  board_documents pointers req w = JsonDocuments docs →
  Mongo.find {["document_id" := document_id]} docs = [].
Proof.
  intros Hnone. unfold board_documents.
  destruct (read_limit req) as [n|]; [|done].
  destruct (mapM _ _) as [document_ids|] eqn:Hids; [|done].
  intros [= <-]. apply find_nil_iff, Forall_forall. intros x Hx Hm.
  apply list_elem_of_filter in Hx as [Hin _].
  apply matches_document_id in Hm.
  unfold Mongo.matches_in in Hin. rewrite Hm in Hin.
  apply mapM_Some in Hids.
  apply list_elem_of_lookup in Hin as [j Hj].
  destruct (Forall2_lookup_r _ _ _ _ _ Hids Hj) as (p & Hp & Hpid).
  apply find_nil_iff in Hnone. rewrite Forall_forall in Hnone.
  apply (Hnone p).
  - eapply find_limit_sub. apply list_elem_of_lookup. by exists j.
  - by apply matches_document_id.
Qed.

Lemma get_documents_sub (req : list_request) w (docs : collection)
    (d : doc) :
  get_documents req w = JsonDocuments docs → d ∈ docs → d ∈ documents_col w.
Proof.
  unfold get_documents. destruct (read_limit req) as [n|]; [|done].
  intros [= <-]. apply find_limit_sub.
Qed.

(** [get_documents] does not depend on the [group] parameter. *)
Lemma get_documents_group_unread (board class_ subject group group' :
    option string) (limit : option (option Z)) w :
  get_documents
    {| args_board := board; args_class := class_; args_subject := subject;
       args_group := group; args_limit := limit |} w
  = get_documents
      {| args_board := board; args_class := class_; args_subject := subject;
         args_group := group'; args_limit := limit |} w.
Proof. reflexivity. Qed.

(** C2, as amended. After [delete_document] no pointer of either board
    and no vector record carries the identifier, and no board listing
    returns a document with it. Of the canonical records with the
    identifier, the first one is removed; when there was at most one, none
    is left and [get_documents] returns none either. *)
Theorem delete_document_removes (document_id : string) w :
  let q : query := {["document_id" := document_id]} in
  let w' := (delete_document document_id w).2 in
  (delete_document document_id w).1
  = JsonMessage "Document deleted successfully"
  ∧ Mongo.find q (stateboard_col w') = []
  ∧ Mongo.find q (cbse_col w') = []
  ∧ (∀ k v, index w' !! k = Some v → metadata_document_id v ≠ document_id)
  ∧ (∀ req docs, get_stateboard_documents req w' = JsonDocuments docs →
       Mongo.find q docs = [])
  ∧ (∀ req docs, get_cbse_documents req w' = JsonDocuments docs →
       Mongo.find q docs = [])
  ∧ Mongo.find q (documents_col w') = tail (Mongo.find q (documents_col w))
  ∧ ((length (Mongo.find q (documents_col w)) ≤ 1)%nat →
     Mongo.find q (documents_col w') = []
     ∧ ∀ req docs, get_documents req w' = JsonDocuments docs →
         Mongo.find q docs = []).
Proof.
  intros q w'. subst w'. unfold delete_document. simpl. fold q.
  split; [done|].
  split; [apply find_delete_many|].
  split; [apply find_delete_many|].
  split; [intros k v Hk; by apply index_delete_lookup in Hk as [_ ?]|].
  split.
  { intros req docs. apply board_documents_without. simpl.
    apply find_delete_many. }
  split.
  { intros req docs. apply board_documents_without. simpl.
    apply find_delete_many. }
  split; [apply find_delete_one|].
  intros Hone.
  assert (Mongo.find q (Mongo.delete_one q (documents_col w)) = [])
    as Hgone.
  { rewrite find_delete_one.
    destruct (Mongo.find q (documents_col w)) as [|d [|d' c]];
      [done|done|simpl in Hone; lia]. }
  split; [done|].
  intros req docs Hdocs. apply find_nil_iff, Forall_forall. intros d Hd.
  apply (get_documents_sub _ _ _ d Hdocs) in Hd. simpl in Hd.
  apply find_nil_iff in Hgone. rewrite Forall_forall in Hgone.
  by apply Hgone.
Qed.

(** C9, as amended. Deleting an identifier that no canonical record
    carries reports success and leaves the canonical collection as it
    was; when no pointer and no vector record carries it either, nothing
    changes at all. *)
Theorem delete_document_unknown (document_id : string) w :
  let q : query := {["document_id" := document_id]} in
  Mongo.find q (documents_col w) = [] →
  (delete_document document_id w).1
  = JsonMessage "Document deleted successfully"
  ∧ documents_col (delete_document document_id w).2 = documents_col w
  ∧ (Mongo.find q (stateboard_col w) = [] →
     Mongo.find q (cbse_col w) = [] →
     (∀ k v, index w !! k = Some v →
        metadata_document_id v ≠ document_id) →
     (delete_document document_id w).2 = w).
Proof.
  intros q Hdocs. unfold delete_document. simpl. fold q.
  split; [done|]. split; [by apply delete_one_none|].
  intros Hs Hc Hi. destruct w as [docs sb cb ix calls]. simpl in *.
  unfold set_index, set_cbse_col, set_stateboard_col, set_documents_col.
  simpl.
  rewrite (delete_one_none q docs Hdocs), (delete_many_none q sb Hs),
    (delete_many_none q cb Hc), (index_delete_none document_id ix Hi).
  done.
Qed.

(** An update either raises, and the stores are as they were, or sets the
    fields of the payload on the first record with the identifier. *)
Lemma update_document_cases (document_id : string) (data : doc) w :
  (∃ exception : string,
     update_document document_id data w = (Unhandled exception, w))
  ∨ (Mongo.encodable_doc data
     ∧ ¬ (is_Some (data !! "_id")
          ∧ Mongo.find {["document_id" := document_id]} (documents_col w)
            ≠ [])
     ∧ update_document document_id data w
       = (JsonMessage "Document updated successfully",
          set_documents_col
            (Mongo.set_first {["document_id" := document_id]} data
               (documents_col w)) w)).
Proof.
  unfold update_document, Mongo.update_one.
  case_decide as Henc; [|left; by eexists].
  case_decide as Hid; [left; by eexists|].
  right. done.
Qed.


End Stores.

(** ** Where the code departs from the specification *)

(** C2 fails as stated. After two uploads and an update that gives the
    first record the identifier of the second, two canonical records
    carry ["b"]; [delete_document "b"] removes one of them, and
    [get_documents] still returns the other. *)
Lemma delete_document_leaves_duplicate :
  map (λ d : doc, d !! "document_id") (documents_col Run.renamed)
  = [Some (VStr "b"); Some (VStr "b")]
  ∧ map (λ d : doc, d !! "document_id")
      (documents_col (delete_document "b" Run.renamed).2)
    = [Some (VStr "b")]
  ∧ ∃ docs : collection,
      get_documents (Run.listing None) (delete_document "b" Run.renamed).2
      = JsonDocuments docs
      ∧ map (λ d : doc, d !! "document_id") docs = [Some (VStr "b")].
Proof.
  split; [by vm_compute|]. split; [by vm_compute|].
  eexists. split; [reflexivity|]. by vm_compute.
Qed.

(** C1 fails as stated. A form sent with no file chosen carries a file
    part whose name is empty; [file.save] then raises on the directory
    [uploads/], and the request, whatever its board, inserts no pointer
    in either collection. *)
Lemma upload_unnamed_routes_nothing :
  files_file (RunFiles.upload_unnamed (Some "stateboard"))
  = Some RunFiles.unnamed
  ∧ form_board (RunFiles.upload_unnamed (Some "stateboard"))
    = Some "stateboard"
  ∧ admin_upload Run.encode 4 "a" 0
      (RunFiles.upload_unnamed (Some "stateboard")) Run.empty
    = Some (Unhandled "IsADirectoryError", Run.empty)
  ∧ stateboard_col Run.empty = []
  ∧ admin_upload Run.encode 4 "a" 0
      (RunFiles.upload_unnamed (Some "cbse")) Run.empty
    = Some (Unhandled "IsADirectoryError", Run.empty)
  ∧ cbse_col Run.empty = [].
Proof. by vm_compute. Qed.

(** C3 fails as stated. A three-character text cut with chunk size 2 and
    overlap 1 gives three chunks where the formula of the specification
    gives two; and with chunk size 4 and overlap 2 the text, shorter than
    a chunk, gives two chunks. *)
Lemma chunk_count_differs :
  Segmenter.chunk_text 4 Run.abc 2 1
  = Some [list_ascii_of_string "ab"; list_ascii_of_string "bc";
          list_ascii_of_string "c"]
  ∧ spec_chunk_count (len Run.abc) 2 1 = 2
  ∧ 0 < len Run.abc < 4
  ∧ Segmenter.chunk_text 4 Run.abc 4 2
    = Some [Run.abc; list_ascii_of_string "c"].
Proof. by vm_compute. Qed.

(** C4 fails as stated. With the overlap equal to the chunk size, or
    above it, the call on the empty text returns the empty list: nothing
    is rejected. *)
Lemma chunk_text_accepts_invalid :
  Segmenter.chunk_text 1 [] 100 100 = Some []
  ∧ Segmenter.chunk_text 1 [] 100 500 = Some [].
Proof. by vm_compute. Qed.


(** C9 fails as stated. In [Run.renamed] no canonical record carries
    ["a"], yet a stateboard pointer and a vector record do;
    [delete_document "a"] reports success and removes both. *)
Lemma delete_document_unknown_changes :
  Mongo.find {["document_id" := "a"]} (documents_col Run.renamed) = []
  ∧ (delete_document "a" Run.renamed).1
    = JsonMessage "Document deleted successfully"
  ∧ length (stateboard_col Run.renamed) = 1%nat
  ∧ stateboard_col (delete_document "a" Run.renamed).2 = []
  ∧ is_Some (index Run.renamed !! "a-0")
  ∧ index (delete_document "a" Run.renamed).2 !! "a-0" = None.
Proof.
  split; [by vm_compute|]. split; [done|]. split; [by vm_compute|].
  split; [by vm_compute|]. split; [|by vm_compute].
  eexists. by vm_compute.
Qed.

(** C8: [get_documents] does not read the [group] parameter. Asked for
    group ["B"], with no board, it returns the one canonical record, whose
    group is ["A"]. *)
Theorem get_documents_ignores_group :
  ∃ d : doc,
    documents_col Run.one = [d]
    ∧ d !! "group" = Some (VStr "A")
    ∧ get_documents (Run.listing (Some "B")) Run.one = JsonDocuments [d].
Proof. eexists. split; [by vm_compute|]. split; by vm_compute. Qed.

(** ** The theorems at concrete inputs *)

Lemma upload_routes_pointer_witness :
  (∃ w' : world nat,
     admin_upload Run.encode 4 "a" 0
       (Run.upload (Some "stateboard") (Some "A")) Run.empty
     = Some (JsonUploaded "Document uploaded successfully" "a", w')
     ∧ length (stateboard_col w') = 1%nat
     ∧ cbse_col w' = [])
  ∧ admin_upload Run.encode 4 "a" 0
      (RunFiles.upload_unnamed (Some "stateboard")) Run.empty
    = Some (Unhandled "IsADirectoryError", Run.empty).
Proof.
  split.
  - destruct (upload_routes_pointer Run.encode 4 "a" 0
                (Run.upload (Some "stateboard") (Some "A")) Run.empty)
      as (Hroute & Hdone & _).
    destruct (Hdone Run.notes eq_refl ltac:(vm_compute; reflexivity)
                ltac:(vm_compute; lia)) as [w' Hrun].
    exists w'. split; [exact Hrun|].
    destruct (Hroute _ _ _ Hrun) as (_ & Hstate & _).
    destruct (Hstate eq_refl) as [Hs Hc]. rewrite Hs, Hc. split; reflexivity.
  - apply (proj2 (proj2 (upload_routes_pointer Run.encode 4 "a" 0
                           (RunFiles.upload_unnamed (Some "stateboard"))
                           Run.empty)) RunFiles.unnamed).
    + reflexivity.
    + vm_compute. reflexivity.
Defined.

Lemma delete_document_removes_witness :
  (length (Mongo.find {["document_id" := "a"]} (documents_col Run.one))
   ≤ 1)%nat
  ∧ Mongo.find {["document_id" := "a"]}
      (documents_col (delete_document "a" Run.one).2) = []
  ∧ Mongo.find {["document_id" := "a"]}
      (stateboard_col (delete_document "a" Run.one).2) = [].
Proof.
  pose proof (delete_document_removes "a" Run.one) as H. cbv zeta in H.
  destruct H as (_ & Hs & _ & _ & _ & _ & _ & Hone).
  assert (length (Mongo.find {["document_id" := "a"]}
                    (documents_col Run.one)) ≤ 1)%nat as Hle
    by (vm_compute; lia).
  split; [exact Hle|]. split; [exact (proj1 (Hone Hle))|exact Hs].
Defined.

Lemma chunk_text_count_witness :
  ∃ chunks : list text,
    Segmenter.chunk_text 4 Run.abc 2 1 = Some chunks ∧ len chunks = 3.
Proof.
  destruct (chunk_text_count 4 Run.abc 2 1 ltac:(lia)
              ltac:(vm_compute; lia)) as (chunks & Hrun & Hlen & _).
  exists chunks. split; [exact Hrun|]. rewrite Hlen. reflexivity.
Defined.

Lemma chunk_text_invalid_configuration_witness :
  Segmenter.chunk_text 1 [] 100 100 = Some []
  ∧ Segmenter.chunk_text 1000 Run.abc 100 100 = None.
Proof.
  split.
  - apply (proj1 (chunk_text_invalid_configuration [] 100 100 ltac:(lia)));
      [reflexivity|lia].
  - apply (proj2 (chunk_text_invalid_configuration Run.abc 100 100
                    ltac:(lia))).
    discriminate.
Defined.


Lemma chunk_text_reconstructs_witness :
  ∃ chunks : list text,
    Segmenter.chunk_text 4 Run.abc 2 1 = Some chunks
    ∧ stitch 1 chunks = Run.abc.
Proof.
  destruct (chunk_text_reconstructs 4 Run.abc 2 1 ltac:(lia)
              ltac:(vm_compute; lia)) as (chunks & Hrun & _ & Hstitch).
  exists chunks. split; [exact Hrun|exact Hstitch].
Defined.

Lemma chunk_text_terminates_witness :
  ∃ chunks : list text,
    ∀ fuel : nat, (length Run.abc < fuel)%nat →
      Segmenter.chunk_text fuel Run.abc 2 1 = Some chunks.
Proof. apply (chunk_text_terminates Run.abc 2 1). lia. Defined.

Lemma delete_document_unknown_witness :
  Mongo.find {["document_id" := "zz"]} (documents_col Run.one) = []
  ∧ (delete_document "zz" Run.one).2 = Run.one.
Proof.
  assert (Mongo.find {["document_id" := "zz"]} (documents_col Run.one) = [])
    as Hnone by (vm_compute; reflexivity).
  split; [exact Hnone|].
  pose proof (delete_document_unknown "zz" Run.one) as H. cbv zeta in H.
  destruct (H Hnone) as (_ & _ & Hsame).
  apply Hsame; [vm_compute; reflexivity..|].
  change (map_Forall (λ (_ : string) (v : vector nat),
                        metadata_document_id v ≠ "zz") (index Run.one)).
  apply (bool_decide_unpack _). vm_compute. exact I.
Defined.

Lemma chunks_are_nonempty_substrings_witness :
  (∃ chunks : list text,
     Segmenter.chunk_text 4 Run.abc 2 1 = Some chunks
     ∧ Forall (λ c : text, c ≠ [] ∧ len c ≤ 2) chunks)
  ∧ ∃ (resp : response) (w' : world nat) (chunks : list text),
      admin_upload Run.encode 4 "a" 0 (Run.upload None None) Run.empty
      = Some (resp, w')
      ∧ embedder_calls w' = chunks
      ∧ Forall (λ c : text, c ≠ []) chunks.
Proof.
  destruct (chunks_are_nonempty_substrings Run.encode 4 Run.abc 2 1 "a" 0
              (Run.upload None None) Run.notes Run.empty)
    as [Hchunks Hupload].
  split.
  - destruct (Hchunks ltac:(lia) ltac:(vm_compute; lia))
      as (chunks & Hrun & Hall).
    exists chunks. split; [exact Hrun|].
    eapply Forall_impl; [exact Hall|]. intros c (Hc & Hlen & _). by split.
  - destruct (Hupload eq_refl ltac:(vm_compute; lia))
      as (resp & w' & chunks & Hrun & _ & _ & Hcalls & Hall).
    exists resp, w', chunks. split; [exact Hrun|]. split; [exact Hcalls|].
    exact Hall.
Defined.

(** * Further properties of the code *)

(** ** The shape of the chunks *)

Lemma windows_lookup (t : text) (chunk_size overlap : Z) (i : nat)
    (c : text) :
  0 ≤ overlap < chunk_size →
  map (window t chunk_size overlap)
    (seq 0 (chunk_count t chunk_size overlap)) !! i = Some c →
  c = take (Z.to_nat chunk_size)
        (drop (Z.to_nat (Z.of_nat i * (chunk_size - overlap))) t)
  ∧ Z.of_nat i * (chunk_size - overlap) < len t.
Proof.
  intros Hvalid Hi.
  apply list_lookup_fmap_Some in Hi as (j & -> & Hj).
  apply lookup_seq in Hj as [-> Hlt]. simpl.
  split; [by apply window_inside|by apply start_inside].
Qed.

Lemma stitch_concat (step : Z) (chunks : list text) :
  Forall (λ c : text, len c ≤ step) chunks → stitch step chunks = concat chunks.
Proof.
  induction chunks as [|c chunks IH]; intros Hall; [done|].
  apply Forall_cons in Hall as [Hc Hall].
  assert (py_slice c 0 step = c) as Hwhole.
  { pose proof (len_nonneg c). rewrite py_slice_nonneg by lia.
    rewrite drop_0. apply take_ge. unfold len in *. lia. }
  destruct chunks as [|c' chunks]; [simpl; by rewrite app_nil_r|].
  change (stitch step (c :: c' :: chunks))
    with (py_slice c 0 step ++ stitch step (c' :: chunks)).
  by rewrite Hwhole, IH.
Qed.

(** X1. For [chunk_size > overlap >= 0], chunk [i] has
    [min(chunk_size, len(text) - i*(chunk_size - overlap))] characters:
    a chunk is shorter than [chunk_size] exactly when it reaches the end
    of the text. *)
Theorem chunk_lengths (fuel : nat) (t : text) (chunk_size overlap : Z) :
  0 ≤ overlap < chunk_size → (length t < fuel)%nat →
  ∃ chunks : list text,
    Segmenter.chunk_text fuel t chunk_size overlap = Some chunks
    ∧ ∀ (i : nat) (c : text), chunks !! i = Some c →
        len c = Z.min chunk_size
                  (len t - Z.of_nat i * (chunk_size - overlap)).
Proof.
  intros Hvalid Hfuel. eexists. split; [by apply chunk_text_windows|].
  intros i c Hi. apply windows_lookup in Hi as [-> Hin]; [|done].
  unfold len in *. rewrite length_take, length_drop. nia.
Qed.

(** X2. Consecutive chunks overlap: what chunk [i] holds after its first
    [chunk_size - overlap] characters is the beginning of chunk [i+1]. *)
Theorem chunks_overlap (fuel : nat) (t : text) (chunk_size overlap : Z) :
  0 ≤ overlap < chunk_size → (length t < fuel)%nat →
  ∃ chunks : list text,
    Segmenter.chunk_text fuel t chunk_size overlap = Some chunks
    ∧ ∀ (i : nat) (c c' : text),
        chunks !! i = Some c → chunks !! S i = Some c' →
        py_slice c (chunk_size - overlap) (len c)
        = py_slice c' 0 (len c - (chunk_size - overlap)).
Proof.
  intros Hvalid Hfuel. eexists. split; [by apply chunk_text_windows|].
  intros i c c' Hi Hi'.
  apply windows_lookup in Hi as [Hc Hin]; [|done].
  apply windows_lookup in Hi' as [Hc' Hin']; [|done].
  assert (len c = Z.min chunk_size
                    (len t - Z.of_nat i * (chunk_size - overlap))) as Hlen.
  { rewrite Hc. unfold len in *. rewrite length_take, length_drop. nia. }
  assert (Z.to_nat (Z.of_nat (S i) * (chunk_size - overlap))
          = (Z.to_nat (Z.of_nat i * (chunk_size - overlap))
             + Z.to_nat (chunk_size - overlap))%nat) as Hnext by nia.
  rewrite !py_slice_nonneg by nia.
  rewrite drop_0, Z.sub_0_r.
  rewrite (take_ge (drop _ c))
    by (rewrite length_drop; unfold len in *; lia).
  rewrite Hc at 1. rewrite Hc'.
  rewrite skipn_firstn_comm, drop_drop, <- Hnext, take_take.
  rewrite (take_clip _ (Z.to_nat chunk_size - Z.to_nat (chunk_size - overlap))).
  rewrite (take_clip _ (Z.to_nat (len c - (chunk_size - overlap))
                        `min` Z.to_nat chunk_size)).
  f_equal. rewrite length_drop. unfold len in *. nia.
Qed.

(** X3. With overlap zero the chunks are disjoint pieces whose
    concatenation is the text. *)
Theorem chunks_partition (fuel : nat) (t : text) (chunk_size : Z) :
  0 < chunk_size → (length t < fuel)%nat →
  ∃ chunks : list text,
    Segmenter.chunk_text fuel t chunk_size 0 = Some chunks
    ∧ concat chunks = t.
Proof.
  intros Hsize Hfuel.
  assert (0 ≤ 0 < chunk_size) as Hvalid by lia.
  eexists. split; [by apply chunk_text_windows|].
  rewrite <- (stitch_concat (chunk_size - 0)).
  - rewrite (stitch_windows t chunk_size 0 Hvalid
               (chunk_count t chunk_size 0) 0) by lia.
    by rewrite Z.mul_0_l, drop_0.
  - apply Forall_forall. intros c Hc.
    apply list_elem_of_lookup in Hc as [i Hi].
    apply windows_lookup in Hi as [-> _]; [|done].
    unfold len. rewrite length_take. lia.
Qed.

(** X4. A chunk of at most [overlap] characters repeats the end of the
    chunk before it: it is that chunk without its first
    [chunk_size - overlap] characters, and brings no new text. *)
Theorem short_chunk_is_repeated (fuel : nat) (t : text)
    (chunk_size overlap : Z) :
  0 ≤ overlap < chunk_size → (length t < fuel)%nat →
  ∃ chunks : list text,
    Segmenter.chunk_text fuel t chunk_size overlap = Some chunks
    ∧ ∀ (i : nat) (c c' : text),
        chunks !! i = Some c → chunks !! S i = Some c' →
        len c' ≤ overlap →
        c' = py_slice c (chunk_size - overlap) (len c).
Proof.
  intros Hvalid Hfuel. eexists. split; [by apply chunk_text_windows|].
  intros i c c' Hi Hi' Hshort.
  apply windows_lookup in Hi as [Hc Hin]; [|done].
  apply windows_lookup in Hi' as [Hc' Hin']; [|done].
  assert (Z.to_nat (Z.of_nat (S i) * (chunk_size - overlap))
          = (Z.to_nat (Z.of_nat i * (chunk_size - overlap))
             + Z.to_nat (chunk_size - overlap))%nat) as Hnext by nia.
  assert (len c' = Z.min chunk_size
                     (len t - Z.of_nat (S i) * (chunk_size - overlap)))
    as Hlen'.
  { rewrite Hc'. unfold len in *. rewrite length_take, length_drop. nia. }
  assert (len c = Z.min chunk_size
                    (len t - Z.of_nat i * (chunk_size - overlap))) as Hlen.
  { rewrite Hc. unfold len in *. rewrite length_take, length_drop. nia. }
  rewrite py_slice_nonneg by nia.
  rewrite (take_ge (drop _ c))
    by (rewrite length_drop; unfold len in *; lia).
  rewrite Hc, Hc'.
  rewrite !take_ge by (rewrite length_drop; unfold len in *; nia).
  by rewrite drop_drop, <- Hnext.
Qed.

(** ** The records of a document in the vector index *)

Section VectorIndex.

Context {embedding : Type} (encode : text → embedding).
Implicit Types (w : world embedding) (m : gmap string (vector embedding)).

(** What an upsert leaves under a key: the last record of the batch with
    that id, or what was there. *)
Lemma index_upsert_lookup (vectors : list (vector embedding)) m
    (k : string) :
  index_upsert vectors m !! k
  = match last (filter (λ v, vec_id v = k) vectors) with
    | Some v => Some v
    | None => m !! k
    end.
Proof.
  unfold index_upsert.
  induction vectors as [|v vectors IH] using rev_ind; [done|].
  rewrite foldl_app, filter_app. simpl.
  destruct (decide (vec_id v = k)) as [Hk|Hk].
  - rewrite filter_cons_True, filter_nil by done.
    rewrite last_snoc, Hk. apply lookup_insert_eq.
  - rewrite filter_cons_False, filter_nil, app_nil_r by done.
    by rewrite lookup_insert_ne.
Qed.

Lemma store_chunks_loop_vectors (chunks : list text) :
  ∀ (i : nat) (document_id : string) (vectors : list (vector embedding)) w,
    (store_chunks_loop encode i chunks document_id vectors w).1
    = vectors
      ++ imap (λ j, chunk_vector encode document_id (i + j)) chunks.
Proof.
  induction chunks as [|chunk chunks IH]; intros i document_id vectors w.
  - simpl. by rewrite app_nil_r.
  - simpl. rewrite IH, <- app_assoc. simpl.
    unfold chunk_vector at 2. rewrite Nat.add_0_r.
    do 2 f_equal. apply imap_ext. intros j c _. simpl.
    by rewrite Nat.add_succ_r.
Qed.

Lemma store_chunks_index (chunks : list text) (document_id : string) w :
  index (store_chunks encode chunks document_id w)
  = index_upsert (imap (chunk_vector encode document_id) chunks) (index w).
Proof.
  unfold store_chunks.
  pose proof (store_chunks_loop_vectors chunks 0 document_id [] w) as Hv.
  pose proof (store_chunks_loop_frame embedding encode chunks 0
                document_id [] w) as (_ & _ & _ & Hi & _).
  destruct (store_chunks_loop encode 0 chunks document_id [] w)
    as [vectors w1].
  simpl in *. by rewrite Hv, Hi.
Qed.

Lemma chunk_key_inj (document_id : string) (i j : nat) :
  document_id +:+ "-" +:+ pretty i = document_id +:+ "-" +:+ pretty j →
  i = j.
Proof.
  intros Hk. apply (inj (String.app document_id)) in Hk.
  apply (inj (String.app "-")) in Hk. by apply (inj pretty) in Hk.
Qed.

Lemma last_chunk_vector (chunks : list text) (document_id : string)
    (k : string) (v : vector embedding) :
  last (filter (λ v, vec_id v = k)
          (imap (chunk_vector encode document_id) chunks)) = Some v →
  ∃ (i : nat) (c : text),
    chunks !! i = Some c ∧ v = chunk_vector encode document_id i c
    ∧ k = document_id +:+ "-" +:+ pretty i.
Proof.
  intros Hlast. apply last_Some in Hlast as [l Hl].
  assert (v ∈ filter (λ v, vec_id v = k)
                (imap (chunk_vector encode document_id) chunks)) as Hin.
  { rewrite Hl. apply elem_of_app. right. apply list_elem_of_here. }
  apply list_elem_of_filter in Hin as [Hk Hin].
  apply list_elem_of_lookup in Hin as [i Hi].
  rewrite list_lookup_imap in Hi.
  destruct (chunks !! i) as [c|] eqn:Hc; [|done].
  simpl in Hi. injection Hi as <-. exists i, c. by rewrite <- Hk.
Qed.

Lemma index_after_store_chunks (chunks : list text) (document_id : string)
    w (i : nat) (c : text) :
  chunks !! i = Some c →
  index (store_chunks encode chunks document_id w)
    !! (document_id +:+ "-" +:+ pretty i)
  = Some (chunk_vector encode document_id i c).
Proof.
  intros Hc. rewrite store_chunks_index, index_upsert_lookup.
  destruct (last _) as [v|] eqn:Hlast.
  - apply last_chunk_vector in Hlast as (j & c' & Hc' & -> & Hk).
    apply chunk_key_inj in Hk as <-. rewrite Hc in Hc'.
    by injection Hc' as <-.
  - exfalso. apply last_None in Hlast.
    assert (chunk_vector encode document_id i c
            ∈ filter (λ v, vec_id v = document_id +:+ "-" +:+ pretty i)
                (imap (chunk_vector encode document_id) chunks)) as Hin.
    { apply list_elem_of_filter. split; [done|].
      apply list_elem_of_lookup. exists i.
      by rewrite list_lookup_imap, Hc. }
    rewrite Hlast in Hin. by apply not_elem_of_nil in Hin.
Qed.

(** X5. After [store_chunks], chunk [i] of the document is in the index
    under the id ["{document_id}-{i}"], with the embedding of the chunk
    as values and [{text, document_id}] as metadata. *)
Theorem store_chunks_lookup (chunks : list text) (document_id : string) w
    (i : nat) (c : text) :
  chunks !! i = Some c →
  index (store_chunks encode chunks document_id w)
    !! (document_id +:+ "-" +:+ pretty i)
  = Some {| vec_id := document_id +:+ "-" +:+ pretty i;
            vec_values := encode c;
            metadata_text := c;
            metadata_document_id := document_id |}.
Proof.
  intros Hc. by apply index_after_store_chunks.
Qed.

(** X6. [store_chunks] writes under the ids ["{document_id}-{i}"] with
    [i] below the number of chunks and nowhere else: what the index holds
    under any other id is left as it was. *)
Theorem store_chunks_other_ids (chunks : list text) (document_id : string)
    w (k : string) :
  (∀ i : nat, (i < length chunks)%nat →
     k ≠ document_id +:+ "-" +:+ pretty i) →
  index (store_chunks encode chunks document_id w) !! k = index w !! k.
Proof.
  intros Hother. rewrite store_chunks_index, index_upsert_lookup.
  destruct (last _) as [v|] eqn:Hlast; [|done].
  apply last_chunk_vector in Hlast as (j & c' & Hc' & -> & Hk).
  destruct (Hother j); [|done]. by eapply lookup_lt_Some.
Qed.

(** X7. Storing the chunks of a document a second time leaves the index
    as the first time left it. *)
Theorem store_chunks_again (chunks : list text) (document_id : string) w :
  index (store_chunks encode chunks document_id
           (store_chunks encode chunks document_id w))
  = index (store_chunks encode chunks document_id w).
Proof.
  rewrite !store_chunks_index. apply map_eq. intros k.
  rewrite !index_upsert_lookup. by destruct (last _).
Qed.

End VectorIndex.

(** ** Uploads *)

Lemma canonical_record_id (document_id : string) (now : Z)
    (req : upload_request) (file : upload_file) :
  canonical_record document_id now req file !! "document_id"
  = Some (VStr document_id).
Proof. unfold canonical_record. apply lookup_insert_eq. Qed.

Lemma category_pointer_id (document_id : string) (req : upload_request) :
  category_pointer document_id req !! "document_id"
  = Some (VStr document_id).
Proof.
  unfold category_pointer.
  rewrite !lookup_insert_ne by done. apply lookup_insert_eq.
Qed.

Lemma delete_one_last (q : query) (c : collection) (d : doc) :
  Mongo.find q c = [] → Mongo.matches q d →
  Mongo.delete_one q (c ++ [d]) = c.
Proof.
  unfold Mongo.find. intros Hnone Hd.
  induction c as [|x c IH]; simpl.
  - by rewrite decide_True.
  - destruct (decide (Mongo.matches q x)) as [Hx|Hx].
    + by rewrite filter_cons_True in Hnone.
    + rewrite filter_cons_False in Hnone by done. by rewrite IH.
Qed.

Lemma delete_many_last (q : query) (c : collection) (d : doc) :
  Mongo.find q c = [] → Mongo.matches q d →
  Mongo.delete_many q (c ++ [d]) = c.
Proof.
  intros Hnone Hd. pose proof (delete_many_none q c Hnone) as Hc.
  unfold Mongo.delete_many in *. rewrite filter_app, Hc.
  rewrite filter_cons_False by (intros Hn; by apply Hn).
  by rewrite filter_nil, app_nil_r.
Qed.

(** A call that has returned returns the same list with more fuel. *)
Lemma chunk_loop_more_fuel (fuel fuel' : nat) (t : text)
    (chunk_size overlap start : Z) (chunks result : list text) :
  (fuel ≤ fuel')%nat →
  Segmenter.chunk_loop fuel t chunk_size overlap start chunks = Some result →
  Segmenter.chunk_loop fuel' t chunk_size overlap start chunks = Some result.
Proof.
  revert fuel' start chunks.
  induction fuel as [|fuel IH]; intros fuel' start chunks Hle; [done|].
  destruct fuel' as [|fuel']; [lia|]. simpl.
  destruct (start <? len t); [|done].
  apply IH. lia.
Qed.

(** Whatever the fuel, what a call on a valid configuration returns is
    the list of the windows. *)
Lemma chunk_text_returned (fuel : nat) (t : text) (chunk_size overlap : Z)
    (chunks : list text) :
  0 ≤ overlap < chunk_size →
  Segmenter.chunk_text fuel t chunk_size overlap = Some chunks →
  chunks = map (window t chunk_size overlap)
             (seq 0 (chunk_count t chunk_size overlap)).
Proof.
  intros Hvalid Hrun.
  pose proof (chunk_text_windows t chunk_size overlap Hvalid
                (fuel + S (length t)) ltac:(lia)) as Hwin.
  unfold Segmenter.chunk_text in *.
  rewrite (chunk_loop_more_fuel fuel (fuel + S (length t)) _ _ _ _ _ chunks)
    in Hwin by (done || lia).
  by injection Hwin.
Qed.

Section Uploads.

Context {embedding : Type} (encode : text → embedding).
Implicit Types (w : world embedding) (m : gmap string (vector embedding)).

(** Everything an upload does whose file is saved and read, given the
    chunks of its text. *)
Lemma admin_upload_effect (fuel : nat) (uuid : string) (now : Z)
    (req : upload_request) (file : upload_file) w (chunks : list text) :
  files_file req = Some file →
  upload_raises (saved_path file) file = None →
  Segmenter.chunk_text_default fuel (load_document (saved_path file) file)
  = Some chunks →
  ∃ w',
    admin_upload encode fuel uuid now req w
    = Some (JsonUploaded "Document uploaded successfully" uuid, w')
    ∧ documents_col w'
      = documents_col w ++ [canonical_record uuid now req file]
    ∧ stateboard_col w'
      = (if decide (form_board req = Some "stateboard")
         then stateboard_col w ++ [category_pointer uuid req]
         else stateboard_col w)
    ∧ cbse_col w'
      = (if decide (form_board req = Some "stateboard")
         then cbse_col w
         else cbse_col w ++ [category_pointer uuid req])
    ∧ index w' = index (store_chunks encode chunks uuid w)
    ∧ embedder_calls w' = embedder_calls w ++ chunks.
Proof.
  intros Hfile Hraise Hchunks. unfold admin_upload. rewrite Hfile.
  unfold saved_path in Hraise, Hchunks. rewrite Hraise, Hchunks.
  destruct (store_chunks_frame embedding encode chunks uuid w)
    as (Hd & Hs & Hc & He).
  eexists. split; [done|].
  case_decide; simpl; rewrite ?Hd, ?Hs, ?Hc, ?He; done.
Qed.

(** What an upload that is answered with a document id has done. *)
Lemma admin_upload_uploaded (fuel : nat) (uuid : string) (now : Z)
    (req : upload_request) w (message document_id : string) w' :
  admin_upload encode fuel uuid now req w
  = Some (JsonUploaded message document_id, w') →
  ∃ (file : upload_file) (chunks : list text),
    files_file req = Some file
    ∧ upload_raises (saved_path file) file = None
    ∧ Segmenter.chunk_text_default fuel (load_document (saved_path file) file)
      = Some chunks
    ∧ message = "Document uploaded successfully"
    ∧ document_id = uuid
    ∧ documents_col w'
      = documents_col w ++ [canonical_record uuid now req file]
    ∧ stateboard_col w'
      = (if decide (form_board req = Some "stateboard")
         then stateboard_col w ++ [category_pointer uuid req]
         else stateboard_col w)
    ∧ cbse_col w'
      = (if decide (form_board req = Some "stateboard")
         then cbse_col w
         else cbse_col w ++ [category_pointer uuid req])
    ∧ index w' = index (store_chunks encode chunks uuid w)
    ∧ embedder_calls w' = embedder_calls w ++ chunks.
Proof.
  intros Hup.
  destruct (admin_upload_cases encode _ _ _ _ _ _ _ Hup)
    as [[_ Hno]|(file & chunks & Hfile & Hraise & Hchunks & Hresp & _)].
  { by destruct (Hno message document_id). }
  injection Hresp as -> ->.
  destruct (admin_upload_effect fuel uuid now req file w chunks Hfile Hraise
              Hchunks) as (w'' & Hrun & Heffect).
  rewrite Hup in Hrun. injection Hrun as <-.
  by exists file, chunks.
Qed.

Lemma index_delete_upsert (document_id : string)
    (vectors : list (vector embedding)) m :
  Forall (λ v, metadata_document_id v = document_id) vectors →
  Forall (λ v, m !! vec_id v = None) vectors →
  (∀ k v, m !! k = Some v → metadata_document_id v ≠ document_id) →
  index_delete document_id (index_upsert vectors m) = m.
Proof.
  intros Hmeta Hfresh Hnone. apply map_eq. intros k.
  unfold index_delete. rewrite map_lookup_filter, index_upsert_lookup.
  destruct (last _) as [v|] eqn:Hlast.
  - apply last_Some in Hlast as [l Hl].
    assert (v ∈ filter (λ v, vec_id v = k) vectors) as Hin.
    { rewrite Hl. apply elem_of_app. right. apply list_elem_of_here. }
    apply list_elem_of_filter in Hin as [Hk Hin].
    rewrite Forall_forall in Hmeta, Hfresh.
    simpl. rewrite option_guard_False by (intros Hn; by apply Hn, Hmeta).
    simpl. by rewrite <- Hk, Hfresh.
  - destruct (m !! k) as [v|] eqn:Hk; [|done].
    simpl. rewrite option_guard_True by (by eapply Hnone). done.
Qed.

(** X8. An upload whose extracted text is empty and that is answered
    with the new document id has inserted the canonical record and one
    pointer, but has stored no vector and has not called the embedder.
    A file with none of the three extensions is such an upload. *)
Theorem upload_of_empty_text (fuel : nat) (uuid : string) (now : Z)
    (req : upload_request) (file : upload_file) w
    (message document_id : string) w' :
  files_file req = Some file →
  load_document (saved_path file) file = [] →
  admin_upload encode fuel uuid now req w
  = Some (JsonUploaded message document_id, w') →
  document_id = uuid
  ∧ index w' = index w
  ∧ embedder_calls w' = embedder_calls w
  ∧ documents_col w'
    = documents_col w ++ [canonical_record uuid now req file]
  ∧ (length (stateboard_col w') + length (cbse_col w')
     = S (length (stateboard_col w) + length (cbse_col w)))%nat.
Proof.
  intros Hfile Htext Hup.
  destruct (admin_upload_uploaded _ _ _ _ _ _ _ _ Hup)
    as (file' & chunks & Hfile' & _ & Hchunks & _ & -> & Hd & Hs & Hc & Hi
        & He).
  rewrite Hfile in Hfile'. injection Hfile' as <-.
  rewrite Htext in Hchunks.
  assert (chunks = []) as ->.
  { destruct fuel; [done|]. by injection Hchunks. }
  split; [done|]. rewrite Hi, He, Hd, Hs, Hc.
  split; [by rewrite store_chunks_index|].
  split; [by rewrite app_nil_r|]. split; [done|].
  case_decide; rewrite length_app; simpl; lia.
Qed.

(** X9. An upload followed by the deletion of the document it created
    gives the three collections and the index back as they were, when
    nothing carried the new id before: no canonical record, no pointer,
    no vector metadata, and no index entry under ["{id}-{i}"]. *)
Theorem upload_then_delete (fuel : nat) (uuid : string) (now : Z)
    (req : upload_request) (file : upload_file) w :
  let q : query := {["document_id" := uuid]} in
  files_file req = Some file →
  (length (load_document (saved_path file) file) < fuel)%nat →
  Mongo.find q (documents_col w) = [] →
  Mongo.find q (stateboard_col w) = [] →
  Mongo.find q (cbse_col w) = [] →
  (∀ k v, index w !! k = Some v → metadata_document_id v ≠ uuid) →
  (∀ i : nat, index w !! (uuid +:+ "-" +:+ pretty i) = None) →
  ∃ resp w',
    admin_upload encode fuel uuid now req w = Some (resp, w')
    ∧ documents_col (delete_document uuid w').2 = documents_col w
    ∧ stateboard_col (delete_document uuid w').2 = stateboard_col w
    ∧ cbse_col (delete_document uuid w').2 = cbse_col w
    ∧ index (delete_document uuid w').2 = index w.
Proof.
  intros q Hfile Hfuel Hdocs Hsb Hcb Hmeta Hkeys.
  destruct (upload_raises (saved_path file) file) as [exception|] eqn:Hraise.
  { exists (Unhandled exception), w.
    split; [by apply admin_upload_raises with file|].
    unfold delete_document. simpl. fold q.
    split; [by apply delete_one_none|].
    split; [by apply delete_many_none|].
    split; [by apply delete_many_none|].
    by apply index_delete_none. }
  destruct (default_chunks_of_upload fuel _ Hfuel) as (chunks & Hchunks & _).
  destruct (admin_upload_effect fuel uuid now req file w chunks Hfile
              Hraise Hchunks) as (w' & Hrun & Hd & Hs & Hc & Hi & _).
  exists (JsonUploaded "Document uploaded successfully" uuid), w'.
  split; [done|]. unfold delete_document. simpl. fold q.
  rewrite Hd, Hs, Hc, Hi.
  assert (Mongo.matches q (canonical_record uuid now req file)) as Hrec
    by apply matches_document_id, canonical_record_id.
  assert (Mongo.matches q (category_pointer uuid req)) as Hptr
    by apply matches_document_id, category_pointer_id.
  split; [by apply delete_one_last|].
  split; [case_decide;
            first [by apply delete_many_last|by apply delete_many_none]|].
  split; [case_decide;
            first [by apply delete_many_last|by apply delete_many_none]|].
  rewrite store_chunks_index. apply index_delete_upsert; [..|done].
  - apply Forall_forall. intros v Hv.
    apply list_elem_of_lookup in Hv as [i Hv].
    rewrite list_lookup_imap in Hv.
    destruct (chunks !! i); [|done]. simpl in Hv. by injection Hv as <-.
  - apply Forall_forall. intros v Hv.
    apply list_elem_of_lookup in Hv as [i Hv].
    rewrite list_lookup_imap in Hv.
    destruct (chunks !! i); [|done]. simpl in Hv. injection Hv as <-.
    apply Hkeys.
Qed.

(** X10. An upload that is answered with the new document id has stored
    one vector for each window of the extracted text: for every [i] with
    [400*i] below the length of the text, the index holds under
    ["{id}-{i}"] the embedding and the text of
    [text[400*i : 400*i + 500]], tagged with the new document id; and
    the embedder has been called [ceil(len(text) / 400)] times. *)
Theorem upload_stores_windows (fuel : nat) (uuid : string) (now : Z)
    (req : upload_request) (file : upload_file) w
    (message document_id : string) w' :
  let t := load_document (saved_path file) file in
  files_file req = Some file →
  admin_upload encode fuel uuid now req w
  = Some (JsonUploaded message document_id, w') →
  document_id = uuid
  ∧ (∀ i : nat, Z.of_nat i * 400 < len t →
       index w' !! (uuid +:+ "-" +:+ pretty i)
       = Some {| vec_id := uuid +:+ "-" +:+ pretty i;
                 vec_values :=
                   encode (py_slice t (Z.of_nat i * 400)
                             (Z.of_nat i * 400 + 500));
                 metadata_text :=
                   py_slice t (Z.of_nat i * 400) (Z.of_nat i * 400 + 500);
                 metadata_document_id := uuid |})
  ∧ len (embedder_calls w')
    = len (embedder_calls w) + ceil_div (len t) 400.
Proof.
  intros t Hfile Hup.
  assert (0 ≤ 100 < 500) as Hvalid by lia.
  destruct (admin_upload_uploaded _ _ _ _ _ _ _ _ Hup)
    as (file' & chunks & Hfile' & _ & Hchunks & _ & -> & _ & _ & _ & Hi
        & He).
  rewrite Hfile in Hfile'. injection Hfile' as <-.
  apply (chunk_text_returned fuel t 500 100 chunks Hvalid) in Hchunks
    as ->.
  split; [done|]. split.
  - intros i Hin. rewrite Hi.
    rewrite (index_after_store_chunks encode _ uuid w i
               (window t 500 100 i)); [done|].
    rewrite list_lookup_fmap.
    assert (seq 0 (chunk_count t 500 100) !! i = Some i) as ->; [|done].
    apply lookup_seq. split; [done|].
    by apply (start_inside t 500 100 Hvalid).
  - rewrite He. unfold len. rewrite length_app, length_map, length_seq.
    unfold chunk_count. change (500 - 100) with 400.
    pose proof (ceil_div_nonneg (len t) 400 ltac:(lia) (len_nonneg t)).
    unfold len in *. lia.
Qed.

End Uploads.

(** ** Listings *)

Lemma truthy_Some (s : string) : truthy (Some s) = true ↔ s ≠ "".
Proof.
  simpl. destruct (String.eqb_spec s ""); simpl; split; intros; done.
Qed.

Lemma add_filter_lookup_ne (field field' : string) (o : option string)
    (q : query) :
  field ≠ field' → add_filter field o q !! field' = q !! field'.
Proof.
  intros Hne. unfold add_filter. destruct o as [s|]; [|done].
  destruct (truthy (Some s)); [|done]. by rewrite lookup_insert_ne.
Qed.

(** A filter extended by a parameter holds when the filter holds and,
    for a non-empty parameter, the field has its value. *)
Lemma matches_add_filter (field : string) (o : option string) (q : query)
    (d : doc) :
  q !! field = None →
  Mongo.matches (add_filter field o q) d
  ↔ Mongo.matches q d
    ∧ ∀ s, o = Some s → s ≠ "" → d !! field = Some (VStr s).
Proof.
  intros Hfree. unfold add_filter. destruct o as [s|].
  - destruct (truthy (Some s)) eqn:Ht.
    + apply truthy_Some in Ht. unfold Mongo.matches.
      rewrite map_Forall_insert by done. split.
      * intros [Hs Hq]. split; [done|]. by intros s' [= <-] _.
      * intros [Hq Hs]. split; [by apply Hs|done].
    + split; [|by intros [? _]]. intros Hq. split; [done|].
      intros s' [= <-] Hs. apply truthy_Some in Hs. congruence.
  - split; [|by intros [? _]]. intros Hq. by split.
Qed.

Lemma matches_empty (d : doc) : Mongo.matches ∅ d.
Proof. unfold Mongo.matches. apply map_Forall_empty. Qed.

Lemma matches_documents_query (req : list_request) (d : doc) :
  Mongo.matches (documents_query req) d
  ↔ (∀ s, args_board req = Some s → s ≠ "" → d !! "board" = Some (VStr s))
    ∧ (∀ s, args_class req = Some s → s ≠ "" →
         d !! "class" = Some (VStr s))
    ∧ (∀ s, args_subject req = Some s → s ≠ "" →
         d !! "subject" = Some (VStr s)).
Proof.
  unfold documents_query.
  rewrite matches_add_filter
    by (by rewrite !add_filter_lookup_ne, lookup_empty).
  rewrite matches_add_filter
    by (by rewrite !add_filter_lookup_ne, lookup_empty).
  rewrite matches_add_filter by apply lookup_empty.
  pose proof (matches_empty d). tauto.
Qed.

Lemma matches_board_query (req : list_request) (d : doc) :
  Mongo.matches (board_query req) d
  ↔ (∀ s, args_class req = Some s → s ≠ "" → d !! "class" = Some (VStr s))
    ∧ (∀ s, args_subject req = Some s → s ≠ "" →
         d !! "subject" = Some (VStr s))
    ∧ (∀ s, args_group req = Some s → s ≠ "" →
         d !! "group" = Some (VStr s)).
Proof.
  unfold board_query.
  rewrite matches_add_filter
    by (by rewrite !add_filter_lookup_ne, lookup_empty).
  rewrite matches_add_filter
    by (by rewrite !add_filter_lookup_ne, lookup_empty).
  rewrite matches_add_filter by apply lookup_empty.
  pose proof (matches_empty d). tauto.
Qed.

Lemma limit_length (n : Z) (c : collection) :
  n ≠ 0 → len (Mongo.limit n c) ≤ Z.abs n.
Proof.
  intros Hn. unfold Mongo.limit.
  destruct (Z.eqb_spec n 0) as [?|_]; [done|].
  unfold len. rewrite length_take. lia.
Qed.

Lemma limit_sublist (n : Z) (c : collection) :
  Mongo.limit n c `sublist_of` c.
Proof.
  unfold Mongo.limit. destruct (n =? 0); [done|]. apply sublist_take.
Qed.

Section Listings.

Context {embedding : Type}.
Implicit Types (w : world embedding).

(** X12. [get_documents] returns canonical records only, in the order
    of the collection; each one has the board, the class and the subject
    of every non-empty parameter given; and there are at most 20 of them
    when no limit is given, at most [|n|] for a limit [n] other than
    zero. An empty parameter filters nothing. *)
Theorem get_documents_sound (req : list_request) w (docs : collection) :
  get_documents req w = JsonDocuments docs →
  docs `sublist_of` documents_col w
  ∧ Forall (λ d : doc,
      (∀ s, args_board req = Some s → s ≠ "" →
         d !! "board" = Some (VStr s))
      ∧ (∀ s, args_class req = Some s → s ≠ "" →
           d !! "class" = Some (VStr s))
      ∧ (∀ s, args_subject req = Some s → s ≠ "" →
           d !! "subject" = Some (VStr s))) docs
  ∧ (args_limit req = None → len docs ≤ 20)
  ∧ (∀ n, args_limit req = Some (Some n) → n ≠ 0 → len docs ≤ Z.abs n).
Proof.
  unfold get_documents. fold (documents_query req).
  destruct (read_limit req) as [n|] eqn:Hn; [|done]. intros [= <-].
  split; [|split; [|split]].
  - etrans; [apply limit_sublist|]. apply sublist_filter.
  - apply Forall_forall. intros d Hd. apply matches_documents_query.
    pose proof (elem_of_sublist _ _ _ Hd (limit_sublist _ _)) as Hd'.
    by apply list_elem_of_filter in Hd' as [? _].
  - intros Hnone. unfold read_limit in Hn. rewrite Hnone in Hn.
    injection Hn as <-. by apply (limit_length 20).
  - intros n' Hsome Hn'. unfold read_limit in Hn. rewrite Hsome in Hn.
    injection Hn as <-. by apply limit_length.
Qed.

(** A board listing returns canonical records whose [document_id] a
    pointer of the board carries, the pointer satisfying the filter. *)
Lemma board_documents_sound (pointers : collection) (req : list_request)
    w (docs : collection) (d : doc) (v : value) :
  board_documents pointers req w = JsonDocuments docs →
  d ∈ docs → d !! "document_id" = Some v →
  d ∈ documents_col w
  ∧ ∃ p : doc, p ∈ pointers ∧ p !! "document_id" = Some v
      ∧ Mongo.matches (board_query req) p.
Proof.
  unfold board_documents. fold (board_query req).
  destruct (read_limit req) as [n|]; [|done].
  destruct (mapM _ _) as [document_ids|] eqn:Hids; [|done].
  intros [= <-] Hd Hv.
  apply list_elem_of_filter in Hd as [Hin Hd]. split; [done|].
  unfold Mongo.matches_in in Hin. rewrite Hv in Hin.
  apply mapM_Some in Hids.
  apply list_elem_of_lookup in Hin as [j Hj].
  destruct (Forall2_lookup_r _ _ _ _ _ Hids Hj) as (p & Hp & Hpid).
  assert (p ∈ Mongo.limit n (Mongo.find (board_query req) pointers))
    as Hlim by (apply list_elem_of_lookup; by exists j).
  pose proof (elem_of_sublist _ _ _ Hlim (limit_sublist _ _)) as Hfound.
  apply list_elem_of_filter in Hfound as [Hm Hpin]. by exists p.
Qed.

(** X13. The two board listings return canonical records only, and a
    record with a [document_id] only when a pointer of that board carries
    the same [document_id] and has the class, subject and group of every
    non-empty parameter given: the parameters filter the pointers, not
    the canonical records. *)
Theorem board_listings_sound (req : list_request) w (docs : collection)
    (d : doc) (v : value) :
  let carried (pointers : collection) :=
    ∃ p : doc, p ∈ pointers ∧ p !! "document_id" = Some v
      ∧ (∀ s, args_class req = Some s → s ≠ "" →
           p !! "class" = Some (VStr s))
      ∧ (∀ s, args_subject req = Some s → s ≠ "" →
           p !! "subject" = Some (VStr s))
      ∧ (∀ s, args_group req = Some s → s ≠ "" →
           p !! "group" = Some (VStr s)) in
  d ∈ docs → d !! "document_id" = Some v →
  (get_stateboard_documents req w = JsonDocuments docs →
   d ∈ documents_col w ∧ carried (stateboard_col w))
  ∧ (get_cbse_documents req w = JsonDocuments docs →
     d ∈ documents_col w ∧ carried (cbse_col w)).
Proof.
  intros carried Hd Hv. subst carried.
  split; intros Hrun;
    destruct (board_documents_sound _ req w docs d v Hrun Hd Hv)
      as (Hin & p & Hp & Hpid & Hm);
    (split; [done|]); exists p; apply matches_board_query in Hm; tauto.
Qed.

End Listings.

(** ** An upload as the listings see it *)


Section UploadListed.

Context {embedding : Type} (encode : text → embedding).
Implicit Types (w : world embedding).



(** X15. When every pointer has a [document_id], every handler leaves it
    so, and no board listing raises [KeyError]: it answers with documents
    or, for a limit that is no integer, with [ValueError]. *)
Theorem pointers_keep_id (fuel : nat) (uuid : string) (now : Z)
    (req : upload_request) (document_id : string) (data : doc)
    (lreq : list_request) w :
  pointers_have_id w →
  (∀ resp w', admin_upload encode fuel uuid now req w = Some (resp, w') →
     pointers_have_id w')
  ∧ pointers_have_id (update_document document_id data w).2
  ∧ pointers_have_id (delete_document document_id w).2
  ∧ get_stateboard_documents lreq w ≠ Unhandled "KeyError"
  ∧ get_cbse_documents lreq w ≠ Unhandled "KeyError".
Proof.
  intros Hids. pose proof Hids as Hboth.
  unfold pointers_have_id in Hboth. apply Forall_app in Hboth as [Hsb Hcb].
  assert (∀ pointers,
            Forall (λ p : doc, is_Some (p !! "document_id")) pointers →
            board_documents pointers lreq w ≠ Unhandled "KeyError")
    as Hlisting.
  { intros pointers Hp. unfold board_documents.
    destruct (read_limit lreq) as [n|]; [|done].
    destruct (mapM _ _) as [document_ids|] eqn:Hmap; [done|].
    assert (is_Some (mapM (λ d : doc, d !! "document_id")
              (Mongo.limit n (Mongo.find
                 (add_filter "group" (args_group lreq)
                    (add_filter "subject" (args_subject lreq)
                       (add_filter "class" (args_class lreq) ∅)))
                 pointers)))) as Hsome.
    { apply mapM_is_Some, Forall_forall. intros x Hx.
      pose proof (elem_of_sublist _ _ _ Hx (limit_sublist _ _)) as Hx'.
      apply list_elem_of_filter in Hx' as [_ Hx'].
      rewrite Forall_forall in Hp. by apply Hp. }
    rewrite Hmap in Hsome. by destruct Hsome. }
  split; [|split; [|split; [|split]]].
  - intros resp w' Hup. unfold pointers_have_id.
    destruct (admin_upload_cases encode _ _ _ _ _ _ _ Hup)
      as [[-> _]|(file & chunks & _ & _ & _ & _ & _ & _ & _ & Hroute)];
      [done|].
    assert (is_Some (category_pointer uuid req !! "document_id")) as Hp
      by (rewrite category_pointer_id; by eexists).
    simpl in Hroute. case_decide; destruct Hroute as [-> ->].
    + apply Forall_app. split; [|done]. apply Forall_app. split; [done|].
      apply Forall_singleton. exact Hp.
    + apply Forall_app. split; [done|]. apply Forall_app. split; [done|].
      apply Forall_singleton. exact Hp.
  - destruct (update_document_cases document_id data w)
      as [[exception ->]|(_ & _ & ->)]; done.
  - unfold pointers_have_id. simpl. apply Forall_app.
    rewrite Forall_forall in Hsb, Hcb.
    split; apply Forall_forall; intros x Hx;
      apply list_elem_of_filter in Hx as [_ Hx]; auto.
  - by apply Hlisting.
  - by apply Hlisting.
Qed.

End UploadListed.

(** ** Updates and deletions *)



Lemma matches_document_id_other (document_id document_id' : string)
    (d : doc) :
  document_id ≠ document_id' →
  Mongo.matches {["document_id" := document_id]} d →
  ¬ Mongo.matches {["document_id" := document_id']} d.
Proof.
  intros Hne Hm Hm'. apply matches_document_id in Hm, Hm'. congruence.
Qed.

Lemma find_delete_one_other (q q' : query) (c : collection) :
  (∀ d, Mongo.matches q d → ¬ Mongo.matches q' d) →
  Mongo.find q' (Mongo.delete_one q c) = Mongo.find q' c.
Proof.
  intros Hdisjoint. unfold Mongo.find.
  induction c as [|d c IH]; [done|]. simpl.
  destruct (decide (Mongo.matches q d)) as [Hm|Hm].
  - by rewrite (filter_cons_False _ d) by by apply Hdisjoint.
  - destruct (decide (Mongo.matches q' d)) as [Hm'|Hm'].
    + rewrite !filter_cons_True by done. by rewrite IH.
    + by rewrite !filter_cons_False by done.
Qed.

Lemma find_delete_many_other (q q' : query) (c : collection) :
  (∀ d, Mongo.matches q d → ¬ Mongo.matches q' d) →
  Mongo.find q' (Mongo.delete_many q c) = Mongo.find q' c.
Proof.
  intros Hdisjoint. unfold Mongo.find, Mongo.delete_many.
  apply list_filter_filter_l. intros d Hm' Hm. by apply (Hdisjoint d).
Qed.



Section Maintenance.

Context {embedding : Type} (encode : text → embedding).
Implicit Types (w : world embedding).


(** A deletion of an identifier that nothing carries changes nothing. *)
Lemma delete_document_absent (document_id : string) w :
  Mongo.find {["document_id" := document_id]} (documents_col w) = [] →
  Mongo.find {["document_id" := document_id]} (stateboard_col w) = [] →
  Mongo.find {["document_id" := document_id]} (cbse_col w) = [] →
  (∀ k v, index w !! k = Some v → metadata_document_id v ≠ document_id) →
  (delete_document document_id w).2 = w.
Proof.
  intros Hd Hs Hc Hi. unfold delete_document.
  destruct w as [docs sb cb ix calls]. simpl in *.
  unfold set_index, set_cbse_col, set_stateboard_col, set_documents_col.
  simpl.
  by rewrite (delete_one_none _ docs Hd), (delete_many_none _ sb Hs),
    (delete_many_none _ cb Hc), (index_delete_none document_id ix Hi).
Qed.





(** X19. A deletion touches only what carries the deleted identifier:
    the canonical records and the pointers of any other identifier are
    all still there, and so is every vector record whose metadata names
    another document. *)
Theorem delete_document_keeps_others (document_id document_id' : string)
    w :
  document_id ≠ document_id' →
  let q' : query := {["document_id" := document_id']} in
  let w' := (delete_document document_id w).2 in
  Mongo.find q' (documents_col w') = Mongo.find q' (documents_col w)
  ∧ Mongo.find q' (stateboard_col w') = Mongo.find q' (stateboard_col w)
  ∧ Mongo.find q' (cbse_col w') = Mongo.find q' (cbse_col w)
  ∧ (∀ k v, index w !! k = Some v →
       metadata_document_id v ≠ document_id → index w' !! k = Some v).
Proof.
  intros Hne q' w'. subst q' w'. unfold delete_document. simpl.
  pose proof (matches_document_id_other document_id document_id') as Hdis.
  split; [apply find_delete_one_other; intros d; by apply Hdis|].
  split; [apply find_delete_many_other; intros d; by apply Hdis|].
  split; [apply find_delete_many_other; intros d; by apply Hdis|].
  intros k v Hk Hv. unfold index_delete.
  by apply map_lookup_filter_Some.
Qed.

(** X20. Deleting the same identifier a second time leaves the pointers
    and the index as the first deletion left them; when at most one
    canonical record carried the identifier, the second deletion changes
    nothing at all. *)
Theorem delete_document_twice (document_id : string) w :
  let w1 := (delete_document document_id w).2 in
  let w2 := (delete_document document_id w1).2 in
  stateboard_col w2 = stateboard_col w1
  ∧ cbse_col w2 = cbse_col w1
  ∧ index w2 = index w1
  ∧ ((length (Mongo.find {["document_id" := document_id]}
                (documents_col w)) ≤ 1)%nat → w2 = w1).
Proof.
  intros w1 w2. subst w2.
  assert (Mongo.find {["document_id" := document_id]} (stateboard_col w1)
          = []) as Hs by apply find_delete_many.
  assert (Mongo.find {["document_id" := document_id]} (cbse_col w1) = [])
    as Hc by apply find_delete_many.
  assert (∀ k v, index w1 !! k = Some v →
            metadata_document_id v ≠ document_id) as Hi.
  { intros k v Hk. by apply index_delete_lookup in Hk as [_ ?]. }
  split; [by apply delete_many_none|].
  split; [by apply delete_many_none|].
  split; [by apply index_delete_none|].
  intros Hone. apply delete_document_absent; try done.
  subst w1. simpl. rewrite find_delete_one.
  destruct (Mongo.find _ (documents_col w)) as [|d [|d' c]];
    [done|done|simpl in Hone; lia].
Qed.


End Maintenance.

(** ** Administrator accounts *)

Lemma admins_first_match_None (q : Admins.filter) (c : Admins.admins) :
  Admins.first_match q c = None
  ↔ Forall (λ a : Admins.admin, ¬ Admins.matches q a.2) c.
Proof.
  unfold Admins.first_match. rewrite Forall_forall. split.
  - intros Hhead a Ha Hm.
    assert (a ∈ filter (λ a : Admins.admin, Admins.matches q a.2) c)
      as Hin by (by apply list_elem_of_filter).
    destruct (filter _ c); [by apply not_elem_of_nil in Hin|done].
  - intros Hall.
    destruct (filter (λ a : Admins.admin, Admins.matches q a.2) c)
      as [|a l] eqn:Hf; [done|].
    assert (a ∈ filter (λ a : Admins.admin, Admins.matches q a.2) c)
      as Hin by (rewrite Hf; apply list_elem_of_here).
    apply list_elem_of_filter in Hin as [Hm Ha]. by destruct (Hall a Ha).
Qed.

Lemma admins_matches_email (email : value) (d : doc) :
  Admins.matches {["email" := email]} d
  ↔ d !! "email" = Some email ∨ (email = VNull ∧ d !! "email" = None).
Proof. unfold Admins.matches. by rewrite map_Forall_singleton. Qed.

Lemma admins_matches_credentials (email password : value) (d : doc) :
  Admins.matches (<["email" := email]> {["password" := password]}) d
  ↔ (d !! "email" = Some email ∨ (email = VNull ∧ d !! "email" = None))
    ∧ (d !! "password" = Some password
       ∨ (password = VNull ∧ d !! "password" = None)).
Proof.
  unfold Admins.matches.
  rewrite map_Forall_insert by (by rewrite lookup_singleton_ne).
  by rewrite map_Forall_singleton.
Qed.

(** What a registration that answers 201 did. *)
Lemma admin_register_created (oid : string) (now : Z) (data : doc)
    (c c' : Admins.admins) :
  Admins.admin_register oid now data c
  = (Admins.Message "Admin registered successfully" 201, c') →
  ∃ (username email password : value) (admin : doc),
    data !! "username" = Some username
    ∧ data !! "email" = Some email
    ∧ data !! "password" = Some password
    ∧ Forall (λ a : Admins.admin,
                ¬ Admins.matches {["email" := email]} a.2) c
    ∧ c' = c ++ [(oid, admin)]
    ∧ admin !! "username" = Some username
    ∧ admin !! "email" = Some email
    ∧ admin !! "password" = Some password
    ∧ admin !! "role" = Some (VStr "admin")
    ∧ admin !! "status" = Some (VStr "active")
    ∧ Mongo.encodable email
    ∧ Mongo.encodable password.
Proof.
  unfold Admins.admin_register, Admins.find_one, Admins.insert_one.
  destruct (data !! "email") as [email|]; [|done].
  case_decide as Hemail; [|done].
  destruct (Admins.first_match _ c) eqn:Hfind; [done|].
  destruct (data !! "username") as [username|]; [|done].
  destruct (data !! "password") as [password|]; [|done].
  case_decide as Hadmin; [|done].
  intros [= <-]. apply admins_first_match_None in Hfind.
  eexists username, email, password, _.
  repeat (split; [done|]).
  assert (Mongo.encodable email) as He
    by (apply (Hemail "email"); by rewrite lookup_singleton_eq).
  assert (Mongo.encodable password) as Hp.
  { apply (Hadmin "password").
    by repeat first [rewrite lookup_insert_eq
                    |rewrite lookup_insert_ne by done]. }
  repeat split; try done;
    by repeat first [rewrite lookup_insert_eq|rewrite lookup_insert_ne by done].
Qed.

(** A registration that does not answer 201 stores nothing. *)
Lemma admin_register_cases (oid : string) (now : Z) (data : doc)
    (c : Admins.admins) :
  (Admins.admin_register oid now data c).2 = c
  ∨ (Admins.admin_register oid now data c).1
    = Admins.Message "Admin registered successfully" 201.
Proof.
  unfold Admins.admin_register.
  destruct (data !! "email"); [|by left].
  destruct (Admins.find_one _ c) as [[?|]|]; [by left| |by left].
  destruct (data !! "username"); [|by left].
  destruct (data !! "password"); [|by left].
  destruct (Admins.insert_one _ _ c); [by right|by left].
Qed.

(** An update of a profile either raises, and the administrators are as
    they were, or sets the fields of the payload. *)
Lemma update_admin_profile_cases (admin_id : string) (data : doc)
    (c : Admins.admins) :
  (∃ exception : string,
     Admins.update_admin_profile admin_id data c
     = (Admins.Raised exception, c))
  ∨ Admins.update_admin_profile admin_id data c
    = (Admins.Message "Admin profile updated" 200,
       Admins.set_by_id admin_id data c).
Proof.
  unfold Admins.update_admin_profile, Admins.update_by_id.
  repeat case_decide; first [by right|left; by eexists].
Qed.

Lemma find_by_id_set (admin_id other : string) (data : doc)
    (c : Admins.admins) :
  Admins.find_by_id other (Admins.set_by_id admin_id data c)
  = if decide (other = admin_id)
    then (λ a : Admins.admin, (a.1, data ∪ a.2))
           <$> Admins.find_by_id admin_id c
    else Admins.find_by_id other c.
Proof.
  unfold Admins.find_by_id. induction c as [|a c IH].
  - simpl. by case_decide.
  - cbn [Admins.set_by_id].
    destruct (decide (a.1 = admin_id)) as [Ha|Ha].
    + destruct (decide (other = admin_id)) as [->|Hne].
      * rewrite (filter_cons_True _ a) by done.
        by rewrite filter_cons_True by done.
      * rewrite (filter_cons_False _ a) by congruence.
        by rewrite filter_cons_False by (simpl; congruence).
    + destruct (decide (a.1 = other)) as [Ho|Ho].
      * rewrite decide_False by congruence.
        by rewrite !(filter_cons_True _ a) by done.
      * rewrite !(filter_cons_False _ a) by done.
        by rewrite IH.
Qed.

(** X22. Registration keeps the e-mail addresses distinct: when no two
    administrators have the same [email], none do after
    [admin_register], whatever the body. *)
Theorem register_keeps_emails_unique (oid : string) (now : Z) (data : doc)
    (c : Admins.admins) :
  emails_unique c → emails_unique (Admins.admin_register oid now data c).2.
Proof.
  intros Hunique.
  pose proof (admin_register_cases oid now data c) as Hcase.
  destruct (Admins.admin_register oid now data c) as [r c'] eqn:Hrun.
  simpl in Hcase. destruct Hcase as [Hsame|Hcreated]; [by rewrite Hsame|].
  rewrite Hcreated in Hrun.
  apply admin_register_created in Hrun
    as (u & e & p & admin & _ & _ & _ & Hfree & -> & _ & He & _).
  intros e'. simpl. rewrite filter_app, length_app.
  destruct (decide (e' = e)) as [->|Hne].
  - assert (filter (λ a : Admins.admin, a.2 !! "email" = Some e) c = [])
      as ->; [|by rewrite filter_cons_True].
    destruct (filter (λ a : Admins.admin, a.2 !! "email" = Some e) c)
      as [|a l] eqn:Hf; [done|].
    assert (a ∈ filter (λ a : Admins.admin, a.2 !! "email" = Some e) c)
      as Hin by (rewrite Hf; apply list_elem_of_here).
    apply list_elem_of_filter in Hin as [Ha Hin].
    rewrite Forall_forall in Hfree. destruct (Hfree a Hin).
    apply admins_matches_email. by left.
  - rewrite filter_cons_False by (simpl; congruence).
    simpl. rewrite Nat.add_0_r. apply Hunique.
Qed.

(** X23. After a registration that answered 201, a login with the same
    e-mail address gets the access token of the new administrator when
    the password is the registered one, 401 for any other password that
    the driver encodes, and ends in [OverflowError] for a password that
    is an integer of more than 8 bytes (e-mail and passwords being JSON
    scalars). *)
Theorem register_then_login (create_access_token : string → string)
    (oid : string) (now : Z) (data data' : doc) (c c' : Admins.admins)
    (password password' : value) :
  Admins.admin_register oid now data c
  = (Admins.Message "Admin registered successfully" 201, c') →
  data' !! "email" = data !! "email" →
  data !! "password" = Some password →
  data' !! "password" = Some password' →
  Admins.admin_login create_access_token data' c'
  = if decide (Mongo.encodable password')
    then if decide (password' = password)
         then Admins.AccessToken (create_access_token oid)
         else Admins.Error "Invalid admin credentials" 401
    else Admins.Raised "OverflowError".
Proof.
  intros Hrun Hemail Hp Hp'.
  apply admin_register_created in Hrun
    as (u & e & p & admin & _ & He & Hpw & Hfree & -> & _ & Hae & Hap & _
        & _ & Henc & _).
  rewrite Hp in Hpw. injection Hpw as <-.
  unfold Admins.admin_login, Admins.find_one. rewrite Hemail, He, Hp'.
  assert (Mongo.encodable_doc (<["email" := e]> {["password" := password']})
          ↔ Mongo.encodable password') as Hfilter.
  { unfold Mongo.encodable_doc.
    rewrite map_Forall_insert by (by rewrite lookup_singleton_ne).
    rewrite map_Forall_singleton. tauto. }
  destruct (decide (Mongo.encodable password')) as [Hpenc|Hpenc];
    [rewrite decide_True by (by apply Hfilter)
    |by rewrite decide_False by (by rewrite Hfilter)].
  unfold Admins.first_match. rewrite filter_app.
  assert (filter (λ a : Admins.admin,
                    Admins.matches
                      (<["email" := e]> {["password" := password']}) a.2) c
          = []) as ->.
  { destruct (filter _ c) as [|a l] eqn:Hf; [done|].
    assert (a ∈ filter (λ a : Admins.admin,
                          Admins.matches
                            (<["email" := e]> {["password" := password']})
                            a.2) c)
      as Hin by (rewrite Hf; apply list_elem_of_here).
    apply list_elem_of_filter in Hin as [Ha Hin].
    rewrite Forall_forall in Hfree. destruct (Hfree a Hin).
    apply admins_matches_credentials in Ha as [Ha _].
    by apply admins_matches_email. }
  simpl. case_decide as Heq.
  - subst password'. rewrite filter_cons_True; [done|].
    simpl. apply admins_matches_credentials. split; by left.
  - rewrite filter_cons_False; [done|].
    simpl. intros Hm. apply admins_matches_credentials in Hm as [_ Hm].
    rewrite Hap in Hm. destruct Hm as [Hm|[_ Hm]]; congruence.
Qed.

(** X24. After a registration that answered 201 with an [_id] no
    administrator had, the profile of the new administrator shows the
    username and e-mail address of the body, the role ["admin"] and the
    status ["active"], whatever role or status the body names. *)
Theorem register_then_profile (oid : string) (now : Z) (data : doc)
    (c c' : Admins.admins) :
  Admins.admin_register oid now data c
  = (Admins.Message "Admin registered successfully" 201, c') →
  Admins.find_by_id oid c = None →
  ∃ username email : value,
    data !! "username" = Some username
    ∧ data !! "email" = Some email
    ∧ Admins.admin_profile oid c'
      = Admins.Profile username email (VStr "admin") (VStr "active").
Proof.
  intros Hrun Hfresh.
  apply admin_register_created in Hrun
    as (u & e & p & admin & Hu & He & _ & _ & -> & Hau & Hae & _ & Hr & Hs
        & _).
  exists u, e. split; [done|]. split; [done|].
  unfold Admins.admin_profile, Admins.find_by_id in *.
  rewrite filter_app.
  destruct (filter (λ a : Admins.admin, a.1 = oid) c); [|done].
  rewrite filter_cons_True by done. simpl.
  by rewrite Hau, Hae, Hr, Hs.
Qed.


(** X26. [update_admin_profile] rewrites the administrator of the token
    and no other: the profile of every other administrator is what it
    was, and none is added or removed. *)
Theorem update_admin_profile_frame (admin_id other : string) (data : doc)
    (c : Admins.admins) :
  other ≠ admin_id →
  Admins.admin_profile other (Admins.update_admin_profile admin_id data c).2
  = Admins.admin_profile other c
  ∧ map fst (Admins.update_admin_profile admin_id data c).2 = map fst c.
Proof.
  intros Hne.
  destruct (update_admin_profile_cases admin_id data c)
    as [[exception ->]| ->]; [done|].
  split.
  - unfold Admins.admin_profile. simpl.
    by rewrite find_by_id_set, decide_False.
  - simpl. induction c as [|a c IH]; [done|]. simpl.
    case_decide; simpl; [done|by rewrite IH].
Qed.

(** ** The further properties at concrete inputs *)

Lemma chunk_lengths_witness :
  ∃ chunks : list text,
    Segmenter.chunk_text 4 Run.abc 2 1 = Some chunks
    ∧ ∀ (i : nat) (c : text), chunks !! i = Some c →
        len c = Z.min 2 (len Run.abc - Z.of_nat i * (2 - 1)).
Proof. apply (chunk_lengths 4 Run.abc 2 1); [lia|vm_compute; lia]. Defined.

Lemma chunks_overlap_witness :
  ∃ chunks : list text,
    Segmenter.chunk_text 4 Run.abc 2 1 = Some chunks
    ∧ ∀ (i : nat) (c c' : text),
        chunks !! i = Some c → chunks !! S i = Some c' →
        py_slice c (2 - 1) (len c) = py_slice c' 0 (len c - (2 - 1)).
Proof. apply (chunks_overlap 4 Run.abc 2 1); [lia|vm_compute; lia]. Defined.

Lemma chunks_partition_witness :
  ∃ chunks : list text,
    Segmenter.chunk_text 4 Run.abc 2 0 = Some chunks ∧ concat chunks = Run.abc.
Proof. apply (chunks_partition 4 Run.abc 2); [lia|vm_compute; lia]. Defined.

Lemma short_chunk_is_repeated_witness :
  ∃ chunks : list text,
    Segmenter.chunk_text 4 Run.abc 4 2 = Some chunks
    ∧ ∀ (i : nat) (c c' : text),
        chunks !! i = Some c → chunks !! S i = Some c' →
        len c' ≤ 2 → c' = py_slice c (4 - 2) (len c).
Proof.
  apply (short_chunk_is_repeated 4 Run.abc 4 2); [lia|vm_compute; lia].
Defined.

Lemma store_chunks_lookup_witness :
  index (store_chunks Run.encode [Run.abc] "a" Run.empty)
    !! ("a" +:+ "-" +:+ pretty 0%nat)
  = Some {| vec_id := "a" +:+ "-" +:+ pretty 0%nat;
            vec_values := Run.encode Run.abc;
            metadata_text := Run.abc;
            metadata_document_id := "a" |}.
Proof.
  apply (store_chunks_lookup Run.encode [Run.abc] "a" Run.empty 0 Run.abc).
  reflexivity.
Defined.

Lemma store_chunks_other_ids_witness :
  index (store_chunks Run.encode [Run.abc] "a" Run.one) !! "b-0"
  = index Run.one !! "b-0".
Proof.
  apply (store_chunks_other_ids Run.encode [Run.abc] "a" Run.one "b-0").
  intros i _. simpl. discriminate.
Defined.

Lemma upload_of_empty_text_witness :
  admin_upload Run.encode 1 "c" 2 RunFiles.upload_binary Run.one
  = Some (JsonUploaded "Document uploaded successfully" "c",
          RunFiles.after_binary)
  ∧ index RunFiles.after_binary = index Run.one
  ∧ embedder_calls RunFiles.after_binary = embedder_calls Run.one
  ∧ length (documents_col RunFiles.after_binary) = 2%nat.
Proof.
  assert (admin_upload Run.encode 1 "c" 2 RunFiles.upload_binary Run.one
          = Some (JsonUploaded "Document uploaded successfully" "c",
                  RunFiles.after_binary)) as Hrun
    by (vm_compute; reflexivity).
  split; [exact Hrun|].
  destruct (upload_of_empty_text Run.encode 1 "c" 2 RunFiles.upload_binary
              RunFiles.binary Run.one _ _ _ eq_refl eq_refl Hrun)
    as (_ & Hi & He & Hd & _).
  split; [exact Hi|]. split; [exact He|]. rewrite Hd. reflexivity.
Defined.

Lemma upload_then_delete_witness :
  ∃ (resp : response) (w' : world nat),
    admin_upload Run.encode 4 "a" 0 (Run.upload (Some "cbse") (Some "A"))
      Run.empty = Some (resp, w')
    ∧ documents_col (delete_document "a" w').2 = []
    ∧ stateboard_col (delete_document "a" w').2 = []
    ∧ cbse_col (delete_document "a" w').2 = []
    ∧ index (delete_document "a" w').2 = ∅.
Proof.
  apply (upload_then_delete Run.encode 4 "a" 0
           (Run.upload (Some "cbse") (Some "A")) Run.notes Run.empty);
    first [reflexivity
          |vm_compute; lia
          |intros k v Hk; simpl in Hk; by rewrite lookup_empty in Hk].
Defined.

Lemma get_documents_sound_witness :
  get_documents (Run.listing None) Run.two
  = JsonDocuments (documents_col Run.two)
  ∧ len (documents_col Run.two) ≤ 20.
Proof.
  assert (get_documents (Run.listing None) Run.two
          = JsonDocuments (documents_col Run.two)) as Hrun
    by (vm_compute; reflexivity).
  split; [exact Hrun|].
  destruct (get_documents_sound (Run.listing None) Run.two
              (documents_col Run.two) Hrun) as (_ & _ & Hdefault & _).
  apply Hdefault. reflexivity.
Defined.

Lemma board_listings_sound_witness :
  ∃ p : doc,
    p ∈ stateboard_col Run.one ∧ p !! "document_id" = Some (VStr "a").
Proof.
  pose proof (board_listings_sound (Run.listing None) Run.one
                (documents_col Run.one)
                (canonical_record "a" 0
                   (Run.upload (Some "stateboard") (Some "A")) Run.notes)
                (VStr "a")) as H.
  cbv zeta in H.
  destruct H as [Hstate _].
  - vm_compute. apply list_elem_of_here.
  - apply canonical_record_id.
  - destruct Hstate as (_ & p & Hp & Hid & _); [vm_compute; reflexivity|].
    exists p. split; [exact Hp|exact Hid].
Defined.


Lemma pointers_keep_id_witness :
  pointers_have_id Run.one
  ∧ pointers_have_id (delete_document "a" Run.one).2
  ∧ get_stateboard_documents (Run.listing None) Run.one
    ≠ Unhandled "KeyError".
Proof.
  assert (pointers_have_id Run.one) as Hids.
  { unfold pointers_have_id. apply (bool_decide_unpack _).
    vm_compute. exact I. }
  split; [exact Hids|].
  destruct (pointers_keep_id Run.encode 4 "b" 1
              (Run.upload None None) "a" ∅ (Run.listing None) Run.one Hids)
    as (_ & _ & Hdelete & Hlist & _).
  split; [exact Hdelete|exact Hlist].
Defined.




Lemma delete_document_keeps_others_witness :
  Mongo.find {["document_id" := "b"]}
    (documents_col (delete_document "a" Run.two).2)
  = Mongo.find {["document_id" := "b"]} (documents_col Run.two).
Proof.
  pose proof (delete_document_keeps_others "a" "b" Run.two) as H.
  cbv zeta in H.
  destruct H as (Hdocs & _); [discriminate|exact Hdocs].
Defined.


Lemma register_keeps_emails_unique_witness :
  emails_unique RunAccounts.registered.
Proof.
  apply (register_keeps_emails_unique "id1" 0 RunAccounts.ann []).
  intros email. simpl. lia.
Defined.

Lemma register_then_login_witness :
  Admins.admin_login RunAccounts.token
    (<["email" := VStr "ann@school"]> {["password" := VStr "secret"]})
    RunAccounts.registered
  = Admins.AccessToken (RunAccounts.token "id1")
  ∧ Admins.admin_login RunAccounts.token
      (<["email" := VStr "ann@school"]> {["password" := VStr "guess"]})
      RunAccounts.registered
    = Admins.Error "Invalid admin credentials" 401
  ∧ Admins.admin_login RunAccounts.token
      (<["email" := VStr "ann@school"]> {["password" := RunAccounts.large]})
      RunAccounts.registered
    = Admins.Raised "OverflowError".
Proof.
  split; [|split].
  - rewrite (register_then_login RunAccounts.token "id1" 0 RunAccounts.ann
               (<["email" := VStr "ann@school"]>
                  {["password" := VStr "secret"]})
               [] RunAccounts.registered (VStr "secret") (VStr "secret"));
      vm_compute; reflexivity.
  - rewrite (register_then_login RunAccounts.token "id1" 0 RunAccounts.ann
               (<["email" := VStr "ann@school"]>
                  {["password" := VStr "guess"]})
               [] RunAccounts.registered (VStr "secret") (VStr "guess"));
      vm_compute; reflexivity.
  - rewrite (register_then_login RunAccounts.token "id1" 0 RunAccounts.ann
               (<["email" := VStr "ann@school"]>
                  {["password" := RunAccounts.large]})
               [] RunAccounts.registered (VStr "secret") RunAccounts.large);
      vm_compute; reflexivity.
Defined.

Lemma register_then_profile_witness :
  Admins.admin_profile "id1" RunAccounts.registered
  = Admins.Profile (VStr "ann") (VStr "ann@school") (VStr "admin")
      (VStr "active").
Proof.
  destruct (register_then_profile "id1" 0 RunAccounts.ann []
              RunAccounts.registered) as (u & e & Hu & He & Hprofile).
  - vm_compute. reflexivity.
  - reflexivity.
  - rewrite Hprofile. vm_compute in Hu, He. congruence.
Defined.


Lemma update_admin_profile_frame_witness :
  Admins.admin_profile "id1"
    (Admins.update_admin_profile "id2" {["role" := VStr "owner"]}
       RunAccounts.registered).2
  = Admins.admin_profile "id1" RunAccounts.registered.
Proof.
  apply (update_admin_profile_frame "id2" "id1" {["role" := VStr "owner"]}
           RunAccounts.registered).
  discriminate.
Defined.

Lemma upload_stores_windows_witness :
  admin_upload Run.encode 4 "a" 0
    (Run.upload (Some "stateboard") (Some "A")) Run.empty
  = Some (JsonUploaded "Document uploaded successfully" "a", Run.one)
  ∧ len (embedder_calls Run.one) = 1
  ∧ metadata_text <$> index Run.one !! ("a" +:+ "-" +:+ pretty 0%nat)
    = Some Run.abc.
Proof.
  assert (admin_upload Run.encode 4 "a" 0
            (Run.upload (Some "stateboard") (Some "A")) Run.empty
          = Some (JsonUploaded "Document uploaded successfully" "a",
                  Run.one)) as Hrun
    by (vm_compute; reflexivity).
  split; [exact Hrun|].
  pose proof (upload_stores_windows Run.encode 4 "a" 0
                (Run.upload (Some "stateboard") (Some "A")) Run.notes
                Run.empty _ _ _ eq_refl Hrun) as H.
  cbv zeta in H. destruct H as (_ & Hindex & Hcalls).
  split; [rewrite Hcalls; reflexivity|].
  rewrite (Hindex 0%nat) by (vm_compute; reflexivity). reflexivity.
Defined.
